(** * excalipur: change-tracking model instances and the DAO built on them

    A shallow embedding of [src/model.js], [src/validations.js] and
    [src/dao.js].  JavaScript objects used as maps are association lists in
    insertion order (the order [Object.keys] reports), exceptions are an
    explicit [result], and asynchronous DAO code is a small program monad
    whose only external effect is a statement sent to the connection. *)

From Stdlib Require Import String List ZArith Bool Lia DecimalString.
Import ListNotations.
Open Scope string_scope.
Open Scope list_scope.

(* ===================================================================== *)
(** ** JavaScript values *)
(* ===================================================================== *)

(** Numbers are the integer-valued ones plus [NaN], the one number that is
    not [===] to itself.  Objects (plain objects, dates, arrays, functions)
    are opaque references compared by identity; [VNative n] is the built-in
    function or object that [Object.prototype] holds under the name [n]. *)
Inductive value : Type :=
| VUndefined
| VNull
| VBool (b : bool)
| VNum (n : Z)
| VNaN
| VStr (s : string)
| VObj (ref : nat)
| VNative (name : string).

(** [a === b] *)
Definition strict_eq (a b : value) : bool :=
  match a, b with
  | VUndefined, VUndefined => true
  | VNull, VNull => true
  | VBool x, VBool y => Bool.eqb x y
  | VNum x, VNum y => Z.eqb x y
  | VStr x, VStr y => String.eqb x y
  | VObj x, VObj y => Nat.eqb x y
  | VNative x, VNative y => String.eqb x y
  | _, _ => false
  end.

(** Truthiness, as used by [if (v)], [!v] and [a || b]. *)
Definition truthy (v : value) : bool :=
  match v with
  | VUndefined | VNull | VNaN => false
  | VBool b => b
  | VNum n => negb (Z.eqb n 0)
  | VStr s => negb (String.eqb s "")
  | VObj _ | VNative _ => true
  end.

(** [typeof v] *)
Definition js_typeof (v : value) : string :=
  match v with
  | VUndefined => "undefined"
  | VNull => "object"
  | VBool _ => "boolean"
  | VNum _ | VNaN => "number"
  | VStr _ => "string"
  | VObj _ => "object"
  | VNative _ => "function"
  end.

(** [typeof v === "undefined" || v === null] *)
Definition nullish (v : value) : bool :=
  String.eqb (js_typeof v) "undefined" || strict_eq v VNull.

(** A string is truthy unless empty; [null] is [None]. *)
Definition truthy_str (s : option string) : bool :=
  match s with
  | Some x => negb (String.eqb x "")
  | None => false
  end.

(* ===================================================================== *)
(** ** Objects used as maps *)
(* ===================================================================== *)

(** Own properties in insertion order. *)
Definition jsobj : Type := list (string * value).

Fixpoint own (o : jsobj) (k : string) : option value :=
  match o with
  | [] => None
  | (k', v) :: o' => if String.eqb k k' then Some v else own o' k
  end.

(** [o.hasOwnProperty(k)] *)
Definition hasOwnProperty (o : jsobj) (k : string) : bool :=
  match own o k with Some _ => true | None => false end.

(** [o[k] = v]: an existing key keeps its place, a new key goes last.
    (One key is outside this reading: an engine takes an assignment to
    [__proto__] for a change of prototype and creates no property.) *)
Fixpoint put (o : jsobj) (k : string) (v : value) : jsobj :=
  match o with
  | [] => [(k, v)]
  | (k', v') :: o' =>
      if String.eqb k k' then (k', v) :: o' else (k', v') :: put o' k v
  end.

(** [delete o[k]] *)
Fixpoint delete (o : jsobj) (k : string) : jsobj :=
  match o with
  | [] => []
  | (k', v') :: o' =>
      if String.eqb k k' then delete o' k else (k', v') :: delete o' k
  end.

(** [Object.keys(o)] *)
Definition keys (o : jsobj) : list string := map fst o.

(** What every plain object inherits.  [{}] has [Object.prototype] as its
    prototype, so these names answer [true] to the [in] operator and a read
    of them finds the built-in. *)
Definition Object_prototype : jsobj :=
  map (fun n => (n, VNative n))
    ["constructor"; "toString"; "toLocaleString"; "valueOf";
     "hasOwnProperty"; "isPrototypeOf"; "propertyIsEnumerable";
     "__defineGetter__"; "__lookupGetter__"; "__defineSetter__";
     "__lookupSetter__"; "__proto__"].

(** [k in o] for a plain object: own or inherited. *)
Definition js_in (k : string) (o : jsobj) : bool :=
  hasOwnProperty o k || hasOwnProperty Object_prototype k.

(** [o[k]] for a plain object: own, else inherited, else [undefined]. *)
Definition js_get (o : jsobj) (k : string) : value :=
  match own o k with
  | Some v => v
  | None =>
      match own Object_prototype k with
      | Some v => v
      | None => VUndefined
      end
  end.

(* ===================================================================== *)
(** ** Failures *)
(* ===================================================================== *)

(** What a [throw] or a rejected promise carries. *)
Inductive error : Type :=
| ValidationError (failed : list (string * value))
| Error (message : string)
| TypeError (message : string)
| Thrown (v : value).

Inductive result (A : Type) : Type :=
| Ok (a : A)
| Fail (e : error).
Arguments Ok {A} a.
Arguments Fail {A} e.

(* ===================================================================== *)
(** ** The schema: [Model] *)
(* ===================================================================== *)

(** An attribute descriptor.  [attr_column] is the own [column] property
    when there is one, [attr_id] the truthiness of [id], [attr_default] the
    own [default] property (a factory or a plain value) and
    [attr_defaultOfType] the object [new attr.type()] builds when the
    [defaultOfType] flag is set. *)
Inductive default_spec : Type :=
| DefaultFactory (produces : value)
| DefaultValue (v : value).

Record attr : Type := {
  attr_column : option string;
  attr_id : bool;
  attr_default : option default_spec;
  attr_defaultOfType : option value
}.

(** A validation entry: a function, an array [[fn, arg, ...]], or anything
    else (which [validate] refuses).  A validator receives the argument
    list and returns an array [[pass, message]]. *)
Definition validator : Type := list value -> list value.

Inductive validation : Type :=
| ValFunction (fn : validator)
| ValArray (fn : validator) (extra : list value)
| ValOther (shown : string).

(** [self.values] *)
Record Values : Type := {
  current : jsobj;
  original : jsobj
}.

(** A lifecycle hook runs against the instance and may throw. *)
Definition hook : Type := Values -> result Values.

(** What a method hands back, as far as its caller looks at it: an
    object, given by its own enumerable properties in order, or a value
    that is no object. *)
Inductive returned : Type :=
| RObject (o : jsobj)
| ROther.

(** A model method runs against the instance with its arguments and may
    throw. *)
Definition method : Type := Values -> list value -> result (Values * returned).

Record Hooks : Type := {
  preCreate : option (list hook);
  postCreate : option (list hook);
  preUpdate : option (list hook);
  postUpdate : option (list hook);
  preDestroy : option (list hook);
  postDestroy : option (list hook)
}.

Definition no_hooks : Hooks :=
  {| preCreate := None; postCreate := None; preUpdate := None;
     postUpdate := None; preDestroy := None; postDestroy := None |}.

Record ModelOpts : Type := {
  opt_methods : list (string * method);
  opt_validations : list (string * list validation);
  opt_initializer : option (Values -> option jsobj -> list value -> Values);
  opt_hooks : Hooks;
  opt_table : option string
}.

Record Model : Type := {
  attrs : list (string * attr);
  modelMethods : list (string * method);
  validations : list (string * list validation);
  initializer : option (Values -> option jsobj -> list value -> Values);
  hooks : Hooks;
  table : option string;
  id : option string
}.

(** The loop of the [Model] constructor: default the column to the
    attribute name, remember the (last) attribute flagged [id]. *)
Definition with_column (attrName : string) (a : attr) : attr :=
  match attr_column a with
  | Some _ => a
  | None =>
      {| attr_column := Some attrName; attr_id := attr_id a;
         attr_default := attr_default a;
         attr_defaultOfType := attr_defaultOfType a |}
  end.

Definition find_id (l : list (string * attr)) : option string :=
  fold_left (fun acc p => if attr_id (snd p) then Some (fst p) else acc)
            l None.

(** [Model.define(attrs, opts)] *)
Definition define (raw : list (string * attr)) (opts : option ModelOpts)
  : Model :=
  {| attrs := map (fun p => (fst p, with_column (fst p) (snd p))) raw;
     modelMethods := match opts with Some o => opt_methods o | None => [] end;
     validations :=
       match opts with Some o => opt_validations o | None => [] end;
     initializer :=
       match opts with Some o => opt_initializer o | None => None end;
     hooks := match opts with Some o => opt_hooks o | None => no_hooks end;
     table :=
       match opts with
       | Some o => if truthy_str (opt_table o) then opt_table o else None
       | None => None
       end;
     id := find_id raw |}.

Definition find_attr (m : Model) (name : string) : option attr :=
  match find (fun p => String.eqb name (fst p)) (attrs m) with
  | Some p => Some (snd p)
  | None => None
  end.

(* ===================================================================== *)
(** ** The instance: [ModelInstance] and its proxy *)
(* ===================================================================== *)

(** [proto] is the schema the instance inherits from ([self.__proto__]). *)
Record ModelInstance : Type := {
  proto : Model;
  values : Values;
  emitted : list (string * list value)
}.

Definition with_values (self : ModelInstance) (v : Values) : ModelInstance :=
  {| proto := proto self; values := v; emitted := emitted self |}.

(** The tail of the constructor's chain: default factory, then a fresh
    value of the declared type, then a static default, else [null]. *)
Definition default_value (a : attr) : value :=
  match attr_default a, attr_defaultOfType a with
  | Some (DefaultFactory v), _ => v
  | _, Some fresh => fresh
  | Some (DefaultValue v), None => v
  | None, None => VNull
  end.

(** The value one schema attribute starts with. *)
Definition initial_value (attrName : string) (a : attr)
  (given : option jsobj) : value :=
  match given with
  | Some g =>
      if hasOwnProperty g attrName then js_get g attrName
      else if truthy_str (attr_column a)
              && hasOwnProperty g
                   (match attr_column a with Some c => c | None => "" end)
      then js_get g (match attr_column a with Some c => c | None => "" end)
      else default_value a
  | None => default_value a
  end.

(** [new modelConstructor(attrs, ...argv)] *)
Definition construct (m : Model) (given : option jsobj) (argv : list value)
  : ModelInstance :=
  let start := {| current := []; original := [] |} in
  let inited :=
    match initializer m with
    | Some init => init start given argv
    | None => start
    end in
  {| proto := m;
     values :=
       {| current :=
            fold_left
              (fun cur p => put cur (fst p) (initial_value (fst p) (snd p) given))
              (attrs m) (current inited);
          original := original inited |};
     emitted := [] |}.

(** The names of [self.methods]: the emitter's, the base methods, the
    model's own. *)
Definition EventEmitter_names : list string :=
  ["setMaxListeners"; "emit"; "addListener"; "on"; "once";
   "removeListener"; "removeAllListeners"; "listeners";
   "domain"; "_events"; "_maxListeners"].

Definition baseMethods : list string :=
  ["checkpoint"; "hasChanged"; "attr"; "changed"; "original"; "validate"].

Definition methods (self : ModelInstance) : jsobj :=
  fold_left (fun o n => put o n (VObj 0))
    (EventEmitter_names ++ baseMethods
       ++ map fst (modelMethods (proto self))) [].

(** What a read through the proxy yields. *)
Inductive property : Type :=
| PValue (v : value)
| PModel
| PSelf
| PMethod (name : string).

(** [if (name === "id" && self.id) name = self.id] *)
Definition alias (self : ModelInstance) (name : string) : string :=
  if String.eqb name "id" && truthy_str (id (proto self))
  then match id (proto self) with Some i => i | None => name end
  else name.

(** The proxy's [get] trap. *)
Definition get (self : ModelInstance) (name : string) : property :=
  if String.eqb name "__model__" then PModel
  else if String.eqb name "__self__" then PSelf
  else
    let name := alias self name in
    if js_in name (current (values self))
    then PValue (js_get (current (values self)) name)
    else if js_in name (methods self)
    then match own (methods self) name with
         | Some _ => PMethod name
         | None => PValue (js_get (methods self) name)
         end
    else PValue VUndefined.

(** The proxy's [set] trap: the updated instance and the returned flag. *)
Definition set (self : ModelInstance) (name : string) (val : value)
  : ModelInstance * bool :=
  let name := alias self name in
  if js_in name (current (values self)) then
    let orig :=
      if negb (hasOwnProperty (original (values self)) name)
      then put (original (values self)) name
               (js_get (current (values self)) name)
      else if strict_eq val (js_get (original (values self)) name)
      then delete (original (values self)) name
      else original (values self) in
    let cur := put (current (values self)) name val in
    ({| proto := proto self;
        values := {| current := cur; original := orig |};
        emitted :=
          emitted self ++
            [("change:all", [VStr name; js_get orig name; val]);
             (String.append "change:" name, [js_get orig name; val])] |},
     true)
  else (self, true).

(** [checkpoint()] *)
Definition checkpoint (self : ModelInstance) : ModelInstance :=
  with_values self
    {| current := current (values self); original := [] |}.

(** [hasChanged(name)] *)
Definition hasChanged (self : ModelInstance) (name : string) : bool :=
  hasOwnProperty (original (values self)) name.

(** [attr()] with no argument: a shallow copy of [current]. *)
Definition attr_all (self : ModelInstance) : jsobj :=
  fold_left (fun o k => put o k (js_get (current (values self)) k))
            (keys (current (values self))) [].

(** [attr(name)] *)
Definition attr_one (self : ModelInstance) (name : string) : value :=
  js_get (current (values self)) name.

(** [changed()] with no argument. *)
Definition changed_all (self : ModelInstance) : jsobj :=
  fold_left (fun o name => put o name (js_get (current (values self)) name))
            (keys (original (values self))) [].

(** [changed(name)] *)
Definition changed_one (self : ModelInstance) (name : string) : value :=
  if hasOwnProperty (original (values self)) name
  then js_get (current (values self)) name
  else VUndefined.


(** [original(name)] *)
Definition original_one (self : ModelInstance) (name : string) : value :=
  js_get (original (values self)) name.


(** [validate()]: one entry of one attribute.  The entry is applied to the
    attribute's current value followed by the bound arguments; a falsy
    [res[0]] pushes [[prop, res[1]]]. *)
Definition apply_validation (cur : jsobj) (prop : string) (v : validation)
  (failed : list (string * value)) : result (list (string * value)) :=
  match v with
  | ValArray fn extra =>
      let res := fn ([js_get cur prop] ++ extra) in
      if negb (truthy (nth 0 res VUndefined))
      then Ok (failed ++ [(prop, nth 1 res VUndefined)])
      else Ok failed
  | ValFunction fn =>
      let res := fn [js_get cur prop] in
      if negb (truthy (nth 0 res VUndefined))
      then Ok (failed ++ [(prop, nth 1 res VUndefined)])
      else Ok failed
  | ValOther shown =>
      Fail (Error (String.append "Expected validation function, got " shown))
  end.

(** The [for] loop over one attribute's entries. *)
Fixpoint validate_prop (cur : jsobj) (prop : string) (vs : list validation)
  (failed : list (string * value)) : result (list (string * value)) :=
  match vs with
  | [] => Ok failed
  | v :: vs' =>
      match apply_validation cur prop v failed with
      | Ok failed' => validate_prop cur prop vs' failed'
      | Fail e => Fail e
      end
  end.

(** The [forEach] over [Object.keys(self.validations)]. *)
Fixpoint validate_all (cur : jsobj) (vals : list (string * list validation))
  (failed : list (string * value)) : result (list (string * value)) :=
  match vals with
  | [] => Ok failed
  | (prop, vs) :: vals' =>
      match validate_prop cur prop vs failed with
      | Ok failed' => validate_all cur vals' failed'
      | Fail e => Fail e
      end
  end.

(** [validate()] *)
Definition validate (self : ModelInstance) : result unit :=
  match validate_all (current (values self)) (validations (proto self)) [] with
  | Ok failed =>
      if Nat.ltb 0 (length failed) then Fail (ValidationError failed)
      else Ok tt
  | Fail e => Fail e
  end.

(* ===================================================================== *)
(** ** The validators of [validations.js] *)
(* ===================================================================== *)

Definition isString : validator := fun args =>
  if negb (String.eqb (js_typeof (nth 0 args VUndefined)) "string")
  then [VBool false; VStr "expected string"]
  else [VBool true].

Definition isNumber : validator := fun args =>
  if negb (String.eqb (js_typeof (nth 0 args VUndefined)) "number")
  then [VBool false; VStr "expected number"]
  else [VBool true].

Definition isBoolean : validator := fun args =>
  if negb (strict_eq (nth 0 args VUndefined) (VBool true))
     && negb (strict_eq (nth 0 args VUndefined) (VBool false))
  then [VBool false; VStr "expected boolean"]
  else [VBool true].

Definition isNotNull : validator := fun args =>
  if strict_eq (nth 0 args VUndefined) VNull
  then [VBool false; VStr "expected not null"]
  else [VBool true].

(* ===================================================================== *)
(** ** Sequences of proxy operations *)
(* ===================================================================== *)

(** A run of attribute writes [obj[name] = val], left to right. *)
Definition writes (self : ModelInstance) (ws : list (string * value))
  : ModelInstance :=
  fold_left (fun o w => fst (set o (fst w) (snd w))) ws self.

(** The instances a caller can reach with the constructor of a schema,
    proxy writes and [checkpoint()]. *)
Inductive reachable (m : Model) : ModelInstance -> Prop :=
| reach_construct (given : option jsobj) (argv : list value) :
    reachable m (construct m given argv)
| reach_set (self : ModelInstance) (name : string) (val : value) :
    reachable m self -> reachable m (fst (set self name val))
| reach_checkpoint (self : ModelInstance) :
    reachable m self -> reachable m (checkpoint self).


(** What the claim about validation counts: the entries whose verdict is
    a failure, and the pairs they report, attribute by attribute. *)
Definition verdict (cur : jsobj) (prop : string) (v : validation)
  : list value :=
  match v with
  | ValFunction fn => fn [js_get cur prop]
  | ValArray fn extra => fn (js_get cur prop :: extra)
  | ValOther _ => []
  end.

Definition fails (cur : jsobj) (prop : string) (v : validation) : bool :=
  negb (truthy (nth 0 (verdict cur prop v) VUndefined)).

Definition failing_validators (self : ModelInstance) : nat :=
  list_sum
    (map (fun p =>
            length (filter (fails (current (values self)) (fst p)) (snd p)))
         (validations (proto self))).

Definition expected_failures (self : ModelInstance)
  : list (string * value) :=
  flat_map
    (fun p =>
       map (fun v =>
              (fst p,
               nth 1 (verdict (current (values self)) (fst p) v) VUndefined))
           (filter (fails (current (values self)) (fst p)) (snd p)))
    (validations (proto self)).

Definition is_validator (v : validation) : bool :=
  match v with ValOther _ => false | _ => true end.

Definition validators_only (m : Model) : bool :=
  forallb (fun p => forallb is_validator (snd p)) (validations m).

(* ===================================================================== *)
(** ** Schemas used in the examples *)
(* ===================================================================== *)

Definition plain_attr : attr :=
  {| attr_column := None; attr_id := false; attr_default := None;
     attr_defaultOfType := None |}.

Definition id_attr : attr :=
  {| attr_column := None; attr_id := true; attr_default := None;
     attr_defaultOfType := None |}.

Definition column_attr (c : string) : attr :=
  {| attr_column := Some c; attr_id := false; attr_default := None;
     attr_defaultOfType := None |}.

Definition default_attr (v : value) : attr :=
  {| attr_column := None; attr_id := false;
     attr_default := Some (DefaultValue v); attr_defaultOfType := None |}.

(** The schema of the model tests: [name] and [description]. *)
Definition TestA : Model :=
  define [("name", plain_attr); ("description", default_attr (VStr ""))] None.

(** A schema whose identity attribute is not called [id]. *)
Definition Keyed : Model :=
  define [("key", id_attr); ("name", plain_attr)] None.

(** The schema of the validation tests, and an instance on which two
    validators fail: [name] is a number, [description] is null. *)
Definition Validated : Model :=
  define [("name", plain_attr); ("description", plain_attr)]
    (Some {| opt_methods := [];
             opt_validations :=
               [("name", [ValFunction isNotNull; ValFunction isString]);
                ("description", [ValFunction isString])];
             opt_initializer := None;
             opt_hooks := no_hooks;
             opt_table := None |}).

Definition two_failures : ModelInstance :=
  construct Validated (Some [("name", VNum 55)]) [].

(* ===================================================================== *)
(** ** Asynchronous code and the connection *)
(* ===================================================================== *)

(** What the query builder has been told by the time [toString()] is
    called, or the literal text of a statement. *)
Inductive statement : Type :=
| Sql (text : string)
| Insert (into : option string) (sets : list (string * string))
         (returning : string)
| Update (tbl : option string) (where_ : string)
         (sets : list (string * string)) (returning : string)
| Select (from : option string) (where_ : string).

(** [res.rows] *)
Definition rows : Type := list jsobj.

(** A coroutine: it returns, throws, or yields on [conn.queryAsync] and
    resumes with the rows or with the rejection. *)
Inductive prog (A : Type) : Type :=
| Return (a : A)
| Throw (e : error)
| Yield (q : statement) (params : list value) (k : result rows -> prog A).
Arguments Return {A} a.
Arguments Throw {A} e.
Arguments Yield {A} q params k.

Fixpoint bind {A B : Type} (p : prog A) (f : A -> prog B) : prog B :=
  match p with
  | Return a => f a
  | Throw e => Throw e
  | Yield q params k => Yield q params (fun r => bind (k r) f)
  end.

Notation "x <- p ;; q" := (bind p (fun x => q))
  (at level 61, p at next level, right associativity).

(** [try { p } catch (ex) { handler ex }] *)
Fixpoint try_catch {A : Type} (p : prog A) (handler : error -> prog A)
  : prog A :=
  match p with
  | Return a => Return a
  | Throw e => handler e
  | Yield q params k => Yield q params (fun r => try_catch (k r) handler)
  end.

(** [yield conn.queryAsync(q, params)] *)
Definition queryAsync (q : statement) (params : list value) : prog rows :=
  Yield q params
    (fun r => match r with Ok res => Return res | Fail e => Throw e end).

(** A synchronous call that may throw. *)
Definition lift {A : Type} (r : result A) : prog A :=
  match r with Ok a => Return a | Fail e => Throw e end.

(** The connection: a state and the answer it gives to each statement. *)
Record Connection (S : Type) : Type := {
  respond : statement -> list value -> S -> result rows * S
}.
Arguments respond {S} _ _ _ _.

(** Running a coroutine against a connection: the outcome, the statements
    sent in order, and the connection afterwards. *)
Fixpoint run {S A : Type} (conn : Connection S) (p : prog A) (s : S)
  : result A * list (statement * list value) * S :=
  match p with
  | Return a => (Ok a, [], s)
  | Throw e => (Fail e, [], s)
  | Yield q params k =>
      let '(r, s1) := respond conn q params s in
      let '(out, sent, s2) := run conn (k r) s1 in
      (out, (q, params) :: sent, s2)
  end.

(** The per-call options object. *)
Record Opts : Type := {
  o_schema : option string;
  o_readOnly : bool
}.

(** [hooks[i].call(obj.__self__)] for [i = 0 .. length - 1] *)
Fixpoint call_hooks (hs : list hook) (v : Values) : result Values :=
  match hs with
  | [] => Ok v
  | h :: hs' =>
      match h v with
      | Ok v' => call_hooks hs' v'
      | Fail e => Fail e
      end
  end.

(** [if (_.isArray(hs)) { for ... }] *)
Definition run_hooks (hs : option (list hook)) (obj : ModelInstance)
  : result ModelInstance :=
  match hs with
  | Some l =>
      match call_hooks l (values obj) with
      | Ok v => Ok (with_values obj v)
      | Fail e => Fail e
      end
  | None => Ok obj
  end.

(** A property read through the proxy, as a value. *)
Definition as_value (p : property) : value :=
  match p with
  | PValue v => v
  | PModel => VObj 1
  | PSelf => VObj 2
  | PMethod _ => VObj 0
  end.

(** ["$" + n] *)
Definition placeholder (n : nat) : string :=
  String.append "$" (NilEmpty.string_of_uint (Nat.to_uint n)).

(** What the runtime knows and the embedding does not: what calling an
    object held as an attribute value does, with the instance as [this].
    A function runs; any other object is not callable. *)
Class Runtime : Type := {
  call_value : value -> method
}.

(** A call with the instance as [this]. *)
Definition invoke (body : method) (obj : ModelInstance)
  : result (ModelInstance * returned) :=
  match body (values obj) [] with
  | Ok (v, r) => Ok (with_values obj v, r)
  | Fail e => Fail e
  end.

(** The base methods the DAO calls on an instance. *)
Inductive base_method : Type :=
| Validate
| Attr
| Changed
| Checkpoint.

Definition base_name (b : base_method) : string :=
  match b with
  | Validate => "validate"
  | Attr => "attr"
  | Changed => "changed"
  | Checkpoint => "checkpoint"
  end.

(** The base method itself, called without arguments. *)
Definition base_call (b : base_method) (obj : ModelInstance)
  : result (ModelInstance * returned) :=
  match b with
  | Validate =>
      match validate obj with
      | Ok _ => Ok (obj, ROther)
      | Fail e => Fail e
      end
  | Attr => Ok (obj, RObject (attr_all obj))
  | Changed => Ok (obj, RObject (changed_all obj))
  | Checkpoint => Ok (checkpoint obj, ROther)
  end.

(** [self.modelMethods[name]]: a later entry of the same name wins. *)
Definition find_method (m : Model) (name : string) : option method :=
  match find (fun p => String.eqb name (fst p)) (rev (modelMethods m)) with
  | Some p => Some (snd p)
  | None => None
  end.

(** [obj.validate()], [obj.attr()], [obj.changed()], [obj.checkpoint()]:
    the name is read through the proxy and what is found is called.  An
    attribute of that name comes first: an object is handed to the
    runtime, a primitive is not callable.  A model method of that name has
    replaced the base method. *)
Definition call {R : Runtime} (obj : ModelInstance) (b : base_method)
  : result (ModelInstance * returned) :=
  match get obj (base_name b) with
  | PMethod name =>
      match find_method (proto obj) name with
      | Some body => invoke body obj
      | None => base_call b obj
      end
  | PValue (VObj ref) => invoke (call_value (VObj ref)) obj
  | PValue (VNative f) => invoke (call_value (VNative f)) obj
  | PValue _ =>
      Fail (TypeError (String.append (base_name b) " is not a function"))
  | PModel | PSelf =>
      Fail (TypeError (String.append (base_name b) " is not a function"))
  end.

(** [Object.keys(o)] of what a method returned. *)
Definition object_keys (r : returned) : result (list string) :=
  match r with
  | RObject o => Ok (keys o)
  | ROther => Fail (TypeError "Object.keys called on non-object")
  end.

Definition object_of (r : returned) : jsobj :=
  match r with
  | RObject o => o
  | ROther => []
  end.

(** The method is the base one: no attribute of that name hides it and no
    model method has replaced it. *)
Definition base_dispatch (obj : ModelInstance) (b : base_method) : Prop :=
  js_in (base_name b) (current (values obj)) = false /\
  find_method (proto obj) (base_name b) = None.

Definition undisturbed (obj : ModelInstance) (bs : list base_method) : Prop :=
  Forall (base_dispatch obj) bs.

Module DAO.

Record t : Type := {
  model : Model;
  schema : option string
}.

(** [DAO.tableRef(schema, table)] *)
Definition tableRef (schema : option string) (table : option string)
  : option string :=
  if truthy_str schema
  then Some (String.append
               (match schema with Some s => s | None => "" end)
               (String.append "."
                  (match table with Some t => t | None => "null" end)))
  else table.

(** [opts && opts.schema || self.schema] *)
Definition schema_of (self : t) (opts : option Opts) : option string :=
  match opts with
  | Some o => if truthy_str (o_schema o) then o_schema o else schema self
  | None => schema self
  end.

(** [model.attrs[attrName].column || attrName].  [model.attrs] is a plain
    object: a name it only inherits yields a function without [column],
    a name it does not have at all yields [undefined], whose [column]
    cannot be read. *)
Definition columnName (m : Model) (attrName : string) : result string :=
  match find_attr m attrName with
  | Some a =>
      Ok (match attr_column a with
          | Some c => if truthy_str (Some c) then c else attrName
          | None => attrName
          end)
  | None =>
      if hasOwnProperty Object_prototype attrName then Ok attrName
      else Fail (TypeError "Cannot read property 'column' of undefined")
  end.

(** [attrName === model.id] *)
Definition is_id (m : Model) (attrName : string) : bool :=
  match id m with
  | Some i => String.eqb attrName i
  | None => false
  end.

(** The loop of [save] over [attrNames], from index [i] with counter [p]. *)
Fixpoint insert_loop (m : Model) (attrs : jsobj) (attrNames : list string)
  (p : nat) (sets : list (string * string)) (attrValues : list value)
  : result (list (string * string) * list value) :=
  match attrNames with
  | [] => Ok (sets, attrValues)
  | attrName :: rest =>
      match columnName m attrName with
      | Fail e => Fail e
      | Ok column =>
          let attrValue := js_get attrs attrName in
          if is_id m attrName && nullish attrValue
          then insert_loop m attrs rest p sets attrValues
          else insert_loop m attrs rest (S p)
                 (sets ++ [(column, placeholder (S p))])
                 (attrValues ++ [attrValue])
      end
  end.

(** The loop of [update] over the dirty names. *)
Fixpoint update_loop (m : Model) (attrs : jsobj) (attrNames : list string)
  (p : nat) (sets : list (string * string)) (vals : list value)
  : result (list (string * string) * list value) :=
  match attrNames with
  | [] => Ok (sets, vals)
  | attrName :: rest =>
      match columnName m attrName with
      | Fail e => Fail e
      | Ok column =>
          update_loop m attrs rest (S p)
            (sets ++ [(column, placeholder (S p))])
            (vals ++ [js_get attrs attrName])
      end
  end.

(** [obj[attrName] = row[attrName]] for every key of the returned row. *)
Definition merge (obj : ModelInstance) (row : jsobj) : ModelInstance :=
  fold_left (fun o attrName => fst (set o attrName (js_get row attrName)))
            (keys row) obj.

(** [if (res.rows[0]) { ... }] *)
Definition merge_first (obj : ModelInstance) (res : rows) : ModelInstance :=
  match res with
  | row :: _ => merge obj row
  | [] => obj
  end.

(** The attributes whose column the INSERT sets: all but an identity
    attribute that is [null] or [undefined]. *)
Definition supplied (m : Model) (attrs : jsobj) (attrName : string) : bool :=
  negb (is_id m attrName && nullish (js_get attrs attrName)).

(** The [set] calls for a list of attributes, numbered from [p + 1]. *)
Fixpoint set_clauses (m : Model) (attrNames : list string) (p : nat)
  : list (string * string) :=
  match attrNames with
  | [] => []
  | attrName :: rest =>
      (match columnName m attrName with Ok c => c | Fail _ => attrName end,
       placeholder (S p)) :: set_clauses m rest (S p)
  end.

(** The builder of [save], from what [obj.attr()] returned: [into] takes a
    string only, and [toString()] needs a table name and a [set]. *)
Definition insert_from (self : t) (obj : ModelInstance)
  (opts : option Opts) (attrs : returned)
  : result (statement * list value) :=
  match object_keys attrs with
  | Fail e => Fail e
  | Ok attrNames =>
      match tableRef (schema_of self opts) (table (proto obj)) with
      | None => Fail (Error "table name must be a string")
      | Some into =>
          match insert_loop (proto obj) (object_of attrs) attrNames 0 [] []
          with
          | Fail e => Fail e
          | Ok (sets, attrValues) =>
              if negb (truthy_str (Some into))
              then Fail (Error "into() needs to be called")
              else if Nat.eqb (length sets) 0
              then Fail (Error "set() needs to be called")
              else Ok (Insert (Some into) sets "*", attrValues)
          end
      end
  end.

(** The INSERT that [save] builds from the instance, with its values. *)
Definition insert_statement {R : Runtime} (self : t) (obj : ModelInstance)
  (opts : option Opts) : result (statement * list value) :=
  match call obj Attr with
  | Ok (obj, attrs) => insert_from self obj opts attrs
  | Fail e => Fail e
  end.

Definition save {R : Runtime} (self : t) (obj : ModelInstance)
  (opts : option Opts) : prog ModelInstance :=
  let model := proto obj in
  obj <- lift (run_hooks (preCreate (hooks model)) obj) ;;
  validated <- lift (call obj Validate) ;;
  let obj := fst validated in
  attrs <- lift (call obj Attr) ;;
  let obj := fst attrs in
  q <- lift (insert_from self obj opts (snd attrs)) ;;
  res <- queryAsync (fst q) (snd q) ;;
  let obj := merge_first obj res in
  checkpointed <- lift (call obj Checkpoint) ;;
  let obj := fst checkpointed in
  obj <- lift (run_hooks (postCreate (hooks model)) obj) ;;
  Return obj.

(** [model.id + " = $1"] *)
Definition where_id (m : Model) : string :=
  String.append (match id m with Some i => i | None => "null" end) " = $1".

(** The UPDATE that [update] builds for a non-empty dirty set: [table]
    takes a string only. *)
Definition update_statement (self : t) (obj : ModelInstance)
  (opts : option Opts) (attrs : jsobj)
  : result (statement * list value) :=
  match tableRef (schema_of self opts) (table (proto obj)) with
  | None => Fail (Error "table name must be a string")
  | Some tbl =>
      match update_loop (proto obj) attrs (keys attrs) 1 []
              [as_value (get obj "id")] with
      | Ok (sets, vals) =>
          Ok (Update (Some tbl) (where_id (proto obj)) sets "*", vals)
      | Fail e => Fail e
      end
  end.

Definition update {R : Runtime} (self : t) (obj : ModelInstance)
  (opts : option Opts) : prog ModelInstance :=
  let model := proto obj in
  obj <- lift (run_hooks (preUpdate (hooks model)) obj) ;;
  validated <- lift (call obj Validate) ;;
  let obj := fst validated in
  attrs <- lift (call obj Changed) ;;
  let obj := fst attrs in
  attrNames <- lift (object_keys (snd attrs)) ;;
  obj <- (if Nat.ltb 0 (length attrNames)
          then q <- lift (update_statement self obj opts
                            (object_of (snd attrs))) ;;
               res <- queryAsync (fst q) (snd q) ;;
               Return (merge_first obj res)
          else Return obj) ;;
  checkpointed <- lift (call obj Checkpoint) ;;
  let obj := fst checkpointed in
  obj <- lift (run_hooks (postUpdate (hooks model)) obj) ;;
  Return obj.

(** The SELECT of [get]. *)
Definition select_by_id (self : t) (opts : option Opts) : statement :=
  Select (tableRef (schema_of self opts) (table (model self)))
         (where_id (model self)).

(** [get]: an instance for exactly one row, [null] (here [None]) for any
    other number of rows. *)
Definition get (self : t) (id : value) (opts : option Opts)
  : prog (option ModelInstance) :=
  res <- queryAsync (select_by_id self opts) [id] ;;
  if Nat.eqb (length res) 1
  then Return (Some (construct (model self) (Some (nth 0 res [])) []))
  else Return None.

(** The statement that ends a successful transaction. *)
Definition closing (opts : option Opts) : statement :=
  if match opts with Some o => o_readOnly o | None => false end
  then Sql "ROLLBACK;"
  else Sql "COMMIT;".

(** [DAO.inTransaction(conn, fn, opts)] *)
Definition inTransaction {A : Type} (fn : prog A) (opts : option Opts)
  : prog A :=
  try_catch
    (_ <- queryAsync (Sql "BEGIN;") [] ;;
     res <- fn ;;
     _ <- (if match opts with Some o => o_readOnly o | None => false end
           then queryAsync (Sql "ROLLBACK;") []
           else queryAsync (Sql "COMMIT;") []) ;;
     Return res)
    (fun ex =>
       _ <- queryAsync (Sql "ROLLBACK;") [] ;;
       Throw ex).

(** *** The streaming [query] *)

(** [res]: [null], one instance, or the list being collected. *)
Inductive accumulator : Type :=
| ResNull
| ResOne (m : ModelInstance)
| ResList (l : list ModelInstance).

(** What the promise was resolved with: [d.resolve()] or [d.resolve(res)]. *)
Inductive resolution : Type :=
| Nothing
| Result (res : accumulator).

Inductive promise_state : Type :=
| Pending
| Resolved (v : resolution)
| Rejected (e : error).

(** The closure of one [query] call: the two flags, [res], the deferred
    [d] (its state and the progress notifications it passed on) and what
    was handed to [conn.query].  [d.resolve(res)] hands over the array
    itself, not a copy: [shared] says that the value the promise was
    resolved with is the very array [res] still names. *)
Record Query : Type := {
  uniqueResult : bool;
  collectResults : bool;
  res : accumulator;
  promise : promise_state;
  shared : bool;
  progressed : list ModelInstance;
  sent : statement * list value
}.

Definition is_array (v : resolution) : bool :=
  match v with
  | Result (ResList _) => true
  | _ => false
  end.

(** [d.resolve(v)], [d.reject(e)], [d.progress(m)]: a settled promise
    takes no other outcome and passes nothing on.  [v] is nothing or
    [res] itself. *)
Definition resolve (st : Query) (v : resolution) : Query :=
  match promise st with
  | Pending =>
      {| uniqueResult := uniqueResult st; collectResults := collectResults st;
         res := res st; promise := Resolved v; shared := is_array v;
         progressed := progressed st; sent := sent st |}
  | _ => st
  end.

Definition reject (st : Query) (e : error) : Query :=
  match promise st with
  | Pending =>
      {| uniqueResult := uniqueResult st; collectResults := collectResults st;
         res := res st; promise := Rejected e; shared := shared st;
         progressed := progressed st; sent := sent st |}
  | _ => st
  end.

Definition progress (st : Query) (m : ModelInstance) : Query :=
  match promise st with
  | Pending =>
      {| uniqueResult := uniqueResult st; collectResults := collectResults st;
         res := res st; promise := promise st; shared := shared st;
         progressed := progressed st ++ [m]; sent := sent st |}
  | _ => st
  end.

(** [res = r]: the variable names another value from now on. *)
Definition with_res (st : Query) (r : accumulator) : Query :=
  {| uniqueResult := uniqueResult st; collectResults := collectResults st;
     res := r; promise := promise st; shared := false;
     progressed := progressed st; sent := sent st |}.

(** [res.push(m)] on the array [l]: the array grows in place, and with it
    the value of a promise that was resolved with it. *)
Definition push (st : Query) (l : list ModelInstance) (m : ModelInstance)
  : Query :=
  {| uniqueResult := uniqueResult st; collectResults := collectResults st;
     res := ResList (l ++ [m]);
     promise :=
       if shared st then Resolved (Result (ResList (l ++ [m])))
       else promise st;
     shared := shared st;
     progressed := progressed st; sent := sent st |}.

(** [query(conn, q, ...params)]: the handle as it is returned. *)
Definition query (self : t) (q : statement) (params : list value) : Query :=
  {| uniqueResult := false; collectResults := false; res := ResNull;
     promise := Pending; shared := false; progressed := [];
     sent := (q, params) |}.

(** The ["row"] listener. *)
Definition on_row (self : t) (st : Query) (row : jsobj) : result Query :=
  let m := construct (model self) (Some row) [] in
  if uniqueResult st then
    match res st with
    | ResNull => Ok (progress (with_res st (ResOne m)) m)
    | _ => Ok (reject st (Error "multiple results"))
    end
  else if collectResults st then
    match res st with
    | ResList l => Ok (progress (push st l m) m)
    | _ => Fail (TypeError "res.push is not a function")
    end
  else Ok (progress st m).

(** The ["end"] listener. *)
Definition on_end (st : Query) : Query :=
  if uniqueResult st || collectResults st
  then resolve st (Result (res st))
  else resolve st Nothing.

(** The ["error"] listener. *)
Definition on_error (st : Query) (err : error) : Query := reject st err.

(** [d.promise.uniqueResult()] *)
Definition call_uniqueResult (st : Query) : Query :=
  {| uniqueResult := true; collectResults := collectResults st;
     res := res st; promise := promise st; shared := shared st;
     progressed := progressed st; sent := sent st |}.

(** [d.promise.collectResults()] *)
Definition call_collectResults (st : Query) : Query :=
  {| uniqueResult := uniqueResult st; collectResults := true;
     res := ResList []; promise := promise st; shared := false;
     progressed := progressed st; sent := sent st |}.

(** What can happen to a handle: the connection emits, the caller calls. *)
Inductive signal : Type :=
| Row (row : jsobj)
| End
| ErrorEvent (err : error)
| UniqueResult
| CollectResults.

Definition deliver (self : t) (st : Query) (sg : signal) : result Query :=
  match sg with
  | Row row => on_row self st row
  | End => Ok (on_end st)
  | ErrorEvent err => Ok (on_error st err)
  | UniqueResult => Ok (call_uniqueResult st)
  | CollectResults => Ok (call_collectResults st)
  end.

Fixpoint deliver_all (self : t) (st : Query) (sgs : list signal)
  : result Query :=
  match sgs with
  | [] => Ok st
  | sg :: rest =>
      match deliver self st sg with
      | Ok st' => deliver_all self st' rest
      | Fail e => Fail e
      end
  end.

End DAO.

(** [update] as the Q-based copy of the DAO has it: the statement is built
    whatever the dirty set, the builder refuses one without a [set], and
    nothing is returned. *)
Module Legacy.

Definition tableRef (opts : option Opts) (table : option string)
  : option string :=
  match opts with
  | Some o =>
      if truthy_str (o_schema o)
      then Some (String.append
                   (match o_schema o with Some s => s | None => "" end)
                   (String.append "."
                      (match table with Some t => t | None => "null" end)))
      else table
  | None => table
  end.

(** The UPDATE of this copy, as [toString()] yields or refuses it. *)
Definition update_statement (obj : ModelInstance) (opts : option Opts)
  (attrs : jsobj) : result (statement * list value) :=
  match tableRef opts (table (proto obj)) with
  | None => Fail (Error "table name must be a string")
  | Some tbl =>
      match DAO.update_loop (proto obj) attrs (keys attrs) 1 []
              [as_value (get obj "id")] with
      | Ok (sets, vals) =>
          if Nat.eqb (length sets) 0
          then Fail (Error "set() needs to be called")
          else Ok (Update (Some tbl) (DAO.where_id (proto obj)) sets "*",
                   vals)
      | Fail e => Fail e
      end
  end.

Definition update {R : Runtime} (self : DAO.t) (obj : ModelInstance)
  (opts : option Opts) : prog unit :=
  let model := proto obj in
  obj <- lift (run_hooks (preUpdate (hooks model)) obj) ;;
  validated <- lift (call obj Validate) ;;
  let obj := fst validated in
  attrs <- lift (call obj Changed) ;;
  let obj := fst attrs in
  attrNames <- lift (object_keys (snd attrs)) ;;
  q <- lift (update_statement obj opts (object_of (snd attrs))) ;;
  res <- queryAsync (fst q) (snd q) ;;
  let obj := DAO.merge_first obj res in
  checkpointed <- lift (call obj Checkpoint) ;;
  let obj := fst checkpointed in
  obj <- lift (run_hooks (postUpdate (hooks model)) obj) ;;
  Return tt.

End Legacy.

(* ===================================================================== *)
(** ** Connections and schemas used in the examples *)
(* ===================================================================== *)

(** The runtime of the examples: no attribute value is a function. *)
Definition no_functions : Runtime :=
  {| call_value := fun _ _ _ => Fail (TypeError "value is not a function") |}.

(** A connection that plays back prepared answers, one per statement, and
    answers with no rows once they are used up. *)
Definition scripted : Connection (list (result rows)) :=
  {| respond := fun _ _ answers =>
       match answers with
       | a :: rest => (a, rest)
       | [] => (Ok [], [])
       end |}.

(** A schema with an identity and an attribute stored under another
    column name. *)
Definition Users : Model :=
  define [("id", id_attr); ("userName", column_attr "user_name")]
    (Some {| opt_methods := []; opt_validations := [];
             opt_initializer := None; opt_hooks := no_hooks;
             opt_table := Some "users" |}).

Definition users_dao : DAO.t := {| DAO.model := Users; DAO.schema := None |}.

Definition new_user : ModelInstance :=
  construct Users (Some [("userName", VStr "old")]) [].

Definition returned_row : jsobj :=
  [("id", VNum 1); ("user_name", VStr "new")].

(** A hook that appends a letter to the [log] attribute, writing
    [this.values.current] directly. *)
Definition append_log (c : string) : hook := fun v =>
  Ok {| current :=
          put (current v) "log"
            (match js_get (current v) "log" with
             | VStr s => VStr (String.append s c)
             | _ => VStr c
             end);
        original := original v |}.

Definition Logged : Model :=
  define [("id", id_attr); ("log", plain_attr)]
    (Some {| opt_methods := []; opt_validations := [];
             opt_initializer := None;
             opt_hooks :=
               {| preCreate := None; postCreate := None;
                  preUpdate := Some [append_log "a"; append_log "b"];
                  postUpdate := Some [append_log "c"];
                  preDestroy := None; postDestroy := None |};
             opt_table := Some "logged" |}).

Definition logged_dao : DAO.t := {| DAO.model := Logged; DAO.schema := None |}.

Definition clean_logged : ModelInstance :=
  construct Logged (Some [("id", VNum 1); ("log", VStr "")]) [].

(** Signals that neither settle the promise nor ask for a unique result. *)
Definition row_or_collect (sg : DAO.signal) : bool :=
  match sg with
  | DAO.Row _ | DAO.CollectResults => true
  | _ => false
  end.

(** An instance of [Users] whose identity is zero. *)
Definition user_zero : ModelInstance :=
  construct Users (Some [("id", VNum 0); ("userName", VStr "")]) [].

(** While only rows arrive and only [collectResults()] is called, the
    handle stays pending, never asks for a unique result, and holds a list
    whenever it collects. *)
Definition collecting (st : DAO.Query) : Prop :=
  DAO.uniqueResult st = false /\
  DAO.promise st = DAO.Pending /\
  (DAO.collectResults st = true -> exists l, DAO.res st = DAO.ResList l) /\
  DAO.shared st = false.
















Definition column_of (m : Model) (n : string) : string :=
  match find_attr m n with
  | Some {| attr_column := Some c |} => if String.eqb c "" then n else c
  | _ => n
  end.


(* ===================================================================== *)
(** ** The remaining base methods and proxy traps *)
(* ===================================================================== *)


(** [original()] with no argument: a shallow copy of [original]. *)
Definition original_all (self : ModelInstance) : jsobj :=
  fold_left (fun o k => put o k (js_get (original (values self)) k))
            (keys (original (values self))) [].





(** The proxy's [getOwnPropertyNames] trap. *)
Definition getOwnPropertyNames (self : ModelInstance) : list string :=
  keys (current (values self)) ++ keys (methods self).

(** The proxy's [delete] trap: it reports success and removes nothing. *)
Definition delete_trap (self : ModelInstance) (name : string)
  : ModelInstance * bool :=
  (self, true).

(** Whether a validator's verdict is a pass: [res[0]] is truthy. *)
Definition passes (res : list value) : bool :=
  truthy (nth 0 res VUndefined).

(** An instance that went through the proxy: built, written, reverted. *)
Definition travelled : ModelInstance :=
  writes (construct Users (Some returned_row) [])
    [("userName", VStr "x"); ("id", VNum 9)].

(** A schema whose validations hold an entry that is no validator. *)
Definition Malformed : Model :=
  define [("name", plain_attr)]
    (Some {| opt_methods := [];
             opt_validations :=
               [("name", [ValFunction isString; ValOther "42"])];
             opt_initializer := None;
             opt_hooks := no_hooks;
             opt_table := None |}).

(** The [Model] constructor writes the column it defaults into the
    descriptor object the caller passed, and one object may have been
    passed for several attributes.  [raw] names the descriptor object of
    each attribute and [h] is what the objects hold; [define] above is the
    case of one object per attribute. *)
Definition descriptors : Type := nat -> attr.

(** [attr.column = attrName], on the object itself. *)
Definition write_descriptor (h : descriptors) (ref : nat) (a : attr)
  : descriptors :=
  fun r => if Nat.eqb r ref then a else h r.

(** The loop of the constructor, as far as it writes. *)
Definition default_columns (raw : list (string * nat)) (h : descriptors)
  : descriptors :=
  fold_left
    (fun h p => write_descriptor h (snd p) (with_column (fst p) (h (snd p))))
    raw h.

(** [Model.define(attrs, opts)] on shared descriptor objects: the schema,
    which holds the objects as the loop left them, and the objects. *)
Definition define_shared (h : descriptors) (raw : list (string * nat))
  (opts : option ModelOpts) : Model * descriptors :=
  let h' := default_columns raw h in
  ({| attrs := map (fun p => (fst p, h' (snd p))) raw;
      modelMethods :=
        match opts with Some o => opt_methods o | None => [] end;
      validations :=
        match opts with Some o => opt_validations o | None => [] end;
      initializer :=
        match opts with Some o => opt_initializer o | None => None end;
      hooks := match opts with Some o => opt_hooks o | None => no_hooks end;
      table :=
        match opts with
        | Some o => if truthy_str (opt_table o) then opt_table o else None
        | None => None
        end;
      id := find_id (map (fun p => (fst p, h (snd p))) raw) |},
   h').

(** The name of the first attribute that was given the descriptor object
    [ref]. *)
Definition first_holder (raw : list (string * nat)) (ref : nat)
  : option string :=
  match find (fun p => Nat.eqb (snd p) ref) raw with
  | Some p => Some (fst p)
  | None => None
  end.

(** One descriptor object, without a column, for two attributes. *)
Definition one_descriptor : descriptors := fun _ => plain_attr.

Definition Twins : Model :=
  fst (define_shared one_descriptor [("first", 0); ("second", 0)] None).

(** An operation stops before its statement when a pre-hook throws or,
    the pre-hooks done, [obj.validate()] throws. *)
Definition stops_early {R : Runtime} (hs : option (list hook))
  (obj : ModelInstance) (e : error) : Prop :=
  run_hooks hs obj = Fail e \/
  exists obj1, run_hooks hs obj = Ok obj1 /\ call obj1 Validate = Fail e.

(** An instance of the validated schema that fails validation. *)
Definition validated_dao : DAO.t :=
  {| DAO.model := Validated; DAO.schema := None |}.

(** A dirty instance of [Users]. *)
Definition dirty_user : ModelInstance :=
  fst (set (construct Users (Some returned_row) []) "userName" (VStr "newer")).

(** The identity attribute, if any, is called [id] itself, so no name is
    redirected. *)
Definition plain_id (obj : ModelInstance) : Prop :=
  id (proto obj) = None \/ id (proto obj) = Some "id".

(** Whenever the handle collects without asking for a unique result, its
    accumulator is a list. *)
Definition list_when_collecting (st : DAO.Query) : Prop :=
  DAO.uniqueResult st = false ->
  DAO.collectResults st = true ->
  exists l, DAO.res st = DAO.ResList l.

(** The promise shares an array with [res] only once it has been resolved
    with it. *)
Definition sharing_resolved (st : DAO.Query) : Prop :=
  DAO.shared st = true ->
  exists l,
    DAO.promise st = DAO.Resolved (DAO.Result (DAO.ResList l)) /\
    DAO.res st = DAO.ResList l.

(** What a settled promise can still become: nothing else, except that
    the array it was resolved with may have more rows in it. *)
Definition outcome_kept (before after : DAO.promise_state) : Prop :=
  match before with
  | DAO.Resolved (DAO.Result (DAO.ResList l)) =>
      exists more,
        after = DAO.Resolved (DAO.Result (DAO.ResList (l ++ more)))
  | _ => after = before
  end.
(* ===================================================================== *)
(** ** Facts about objects *)
(* ===================================================================== *)


Lemma own_put_same (o : jsobj) (k : string) (v : value) :
  own (put o k v) k = Some v.
Proof.
  induction o as [|[k' v'] o IH]; simpl.
  - now rewrite String.eqb_refl.
  - destruct (String.eqb k k') eqn:E; simpl; rewrite E; auto.
Qed.

Lemma own_put_other (o : jsobj) (k k' : string) (v : value) :
  k <> k' -> own (put o k v) k' = own o k'.
Proof.
  intro Hne. induction o as [|[k0 v0] o IH]; simpl.
  - destruct (String.eqb_spec k' k); [congruence | reflexivity].
  - destruct (String.eqb_spec k k0); simpl.
    + subst k0. destruct (String.eqb_spec k' k); [congruence | reflexivity].
    + destruct (String.eqb k' k0); auto.
Qed.


Lemma own_delete_other (o : jsobj) (k k' : string) :
  k <> k' -> own (delete o k) k' = own o k'.
Proof.
  intro Hne. induction o as [|[k0 v0] o IH]; simpl; auto.
  destruct (String.eqb_spec k k0); simpl.
  - subst k0. destruct (String.eqb_spec k' k); [congruence | auto].
  - destruct (String.eqb k' k0); auto.
Qed.

Lemma js_get_put_same (o : jsobj) (k : string) (v : value) :
  js_get (put o k v) k = v.
Proof. unfold js_get. now rewrite own_put_same. Qed.



(** An object assembled by a loop of writes holds [k] exactly when the loop
    wrote it or the start had it. *)
Lemma own_fold_put {A : Type} (key : A -> string) (val : A -> value)
  (l : list A) (acc : jsobj) (k : string) :
  hasOwnProperty
    (fold_left (fun o x => put o (key x) (val x)) l acc) k =
  hasOwnProperty acc k || existsb (fun x => String.eqb k (key x)) l.
Proof.
  revert acc. induction l as [|x l IH]; intro acc; simpl.
  - now rewrite orb_false_r.
  - rewrite IH. unfold hasOwnProperty.
    destruct (String.eqb_spec k (key x)) as [->|Hne].
    + rewrite own_put_same. simpl. now rewrite orb_true_r.
    + rewrite own_put_other by congruence. reflexivity.
Qed.

Lemma existsb_keys (o : jsobj) (k : string) :
  existsb (fun x => String.eqb k x) (keys o) = hasOwnProperty o k.
Proof.
  unfold hasOwnProperty, keys.
  induction o as [|[k' v'] o IH]; simpl; auto.
  destruct (String.eqb k k'); simpl; auto.
Qed.

(** [changed()] has exactly the keys of [original]. *)
Lemma changed_all_keys (self : ModelInstance) (k : string) :
  hasOwnProperty (changed_all self) k = hasChanged self k.
Proof.
  unfold changed_all, hasChanged.
  rewrite (own_fold_put (fun x => x)
             (fun x => js_get (current (values self)) x)).
  simpl. apply existsb_keys.
Qed.


Lemma hasOwnProperty_in (o : jsobj) (k : string) :
  hasOwnProperty o k = true -> js_in k o = true.
Proof. intro H. unfold js_in. now rewrite H. Qed.

(* ===================================================================== *)
(** ** Dirty tracking *)
(* ===================================================================== *)

(** The write trap on a name the instance has: what it leaves behind. *)
Lemma set_tracked (self : ModelInstance) (name : string) (val : value) :
  js_in (alias self name) (current (values self)) = true ->
  let n := alias self name in
  let self' := fst (set self name val) in
  current (values self') = put (current (values self)) n val /\
  original (values self') =
    (if negb (hasOwnProperty (original (values self)) n)
     then put (original (values self)) n (js_get (current (values self)) n)
     else if strict_eq val (js_get (original (values self)) n)
          then delete (original (values self)) n
          else original (values self)) /\
  proto self' = proto self.
Proof. intro H. unfold set. rewrite H. simpl. auto. Qed.

Lemma set_untracked (self : ModelInstance) (name : string) (val : value) :
  js_in (alias self name) (current (values self)) = false ->
  set self name val = (self, true).
Proof. intro H. unfold set. now rewrite H. Qed.







(** The first write after a checkpoint marks the attribute dirty whatever
    is written, its own current value included. *)
Lemma first_write_marks_dirty (self : ModelInstance) (name : string)
  (val : value) :
  hasOwnProperty (current (values self)) (alias self name) = true ->
  hasChanged self (alias self name) = false ->
  hasChanged (fst (set self name val)) (alias self name) = true.
Proof.
  intros Hdecl Hclean.
  destruct (set_tracked self name val (hasOwnProperty_in _ _ Hdecl))
    as (_ & Horig & _).
  unfold hasChanged in *. rewrite Horig, Hclean. simpl.
  unfold hasOwnProperty. now rewrite own_put_same.
Qed.

(** C1. On an instance built with [name] = "foo", writing "foo" to [name]
    makes [hasChanged("name")] answer true although the current value is
    the checkpoint value: the write trap records a baseline on the first
    write whatever the value written. *)
Theorem same_value_write_marks_dirty :
  let t := construct TestA (Some [("name", VStr "foo")]) [] in
  let t' := writes (checkpoint t) [("name", VStr "foo")] in
  hasChanged t' "name" = true /\
  attr_one t' "name" = attr_one t "name" /\
  strict_eq (attr_one t' "name") (attr_one t "name") = true.
Proof. repeat split. Qed.

(* ===================================================================== *)
(** ** Names outside the schema *)
(* ===================================================================== *)

Lemma hasOwnProperty_put (o : jsobj) (k k' : string) (v : value) :
  hasOwnProperty (put o k v) k' = String.eqb k' k || hasOwnProperty o k'.
Proof.
  unfold hasOwnProperty. destruct (String.eqb_spec k' k) as [->|Hne].
  - now rewrite own_put_same.
  - rewrite own_put_other by congruence. reflexivity.
Qed.

(** Without a custom initializer, the own keys of [current] are schema
    attributes or names [current] inherited before a write made them own. *)
Lemma reachable_keys (m : Model) (self : ModelInstance) :
  initializer m = None ->
  reachable m self ->
  proto self = m /\
  forall k, hasOwnProperty (current (values self)) k = true ->
            hasOwnProperty Object_prototype k = true \/
            In k (map fst (attrs m)).
Proof.
  intros Hinit Hr. induction Hr as [given argv | self name val Hr IH | self Hr IH].
  - split; [reflexivity|]. intros k. unfold construct. rewrite Hinit.
    cbn [values current].
    rewrite (own_fold_put fst (fun p => initial_value (fst p) (snd p) given)).
    cbn [hasOwnProperty own orb]. intro H. right.
    apply existsb_exists in H. destruct H as (p & Hp & Heq).
    apply String.eqb_eq in Heq. subst k. now apply in_map.
  - destruct IH as [Hm Hk].
    destruct (js_in (alias self name) (current (values self))) eqn:Hin.
    + destruct (set_tracked self name val Hin) as (Hcur & _ & Hmod).
      split; [congruence|]. intros k. rewrite Hcur, hasOwnProperty_put.
      destruct (String.eqb_spec k (alias self name)) as [->|Hne]; simpl.
      * intros _. unfold js_in in Hin. apply orb_true_iff in Hin.
        destruct Hin as [Hin|Hin]; [now apply Hk | now left].
      * apply Hk.
    + rewrite set_untracked by exact Hin. now split.
  - destruct IH as [Hm Hk]. split; [exact Hm | exact Hk].
Qed.

(** X29. On an instance built by the constructor of a schema without a custom
    initializer and changed only through the proxy, a name that is not a
    schema attribute, that [in] does not find in [self.methods] (it is no
    method and no name every object inherits, such as [constructor] or
    [toString]), that is neither [__model__] nor [__self__], and is not
    [id] on a schema that has an identity attribute, reads as [undefined];
    writing it returns true and leaves the instance as it was. *)
Theorem undeclared_name_is_inert
  (m : Model) (self : ModelInstance) (name : string) (val : value) :
  initializer m = None ->
  reachable m self ->
  ~ In name (map fst (attrs m)) ->
  js_in name (methods self) = false ->
  name <> "__model__" ->
  name <> "__self__" ->
  (name = "id" -> truthy_str (id m) = false) ->
  get self name = PValue VUndefined /\ set self name val = (self, true).
Proof.
  intros Hinit Hr Hundecl Hmeth Hmodel Hself Hid.
  destruct (reachable_keys m self Hinit Hr) as [Hm Hkeys].
  assert (Halias : alias self name = name).
  { unfold alias. rewrite Hm. destruct (String.eqb_spec name "id") as [E|E].
    - now rewrite (Hid E).
    - reflexivity. }
  assert (Hproto : hasOwnProperty Object_prototype name = false).
  { unfold js_in in Hmeth. apply orb_false_iff in Hmeth. tauto. }
  assert (Hin : js_in name (current (values self)) = false).
  { unfold js_in. rewrite Hproto, orb_false_r.
    destruct (hasOwnProperty (current (values self)) name) eqn:E; auto.
    destruct (Hkeys name E) as [H|H]; [congruence | contradiction]. }
  split.
  - unfold get.
    apply String.eqb_neq in Hmodel. apply String.eqb_neq in Hself.
    rewrite Hmodel, Hself, Halias, Hin, Hmeth. reflexivity.
  - apply set_untracked. now rewrite Halias.
Qed.

Lemma undeclared_name_is_inert_witness :
  get (construct TestA None []) "foo" = PValue VUndefined /\
  set (construct TestA None []) "foo" (VStr "stuff") =
    (construct TestA None [], true).
Proof.
  apply (undeclared_name_is_inert TestA (construct TestA None []) "foo"
           (VStr "stuff")).
  - reflexivity.
  - apply reach_construct.
  - simpl. intros [H|[H|H]]; [discriminate H | discriminate H | exact H].
  - reflexivity.
  - discriminate.
  - discriminate.
  - discriminate.
Defined.

(** On a schema whose identity attribute is [key], the name [id] is not a
    schema attribute and not a method, yet reading it yields the value of
    [key] and writing it changes [key] and marks it dirty. *)
Lemma id_reaches_identity_attribute :
  let t := construct Keyed (Some [("key", VNum 7)]) [] in
  reachable Keyed t /\
  ~ In "id" (map fst (attrs Keyed)) /\
  js_in "id" (methods t) = false /\
  get t "id" = PValue (VNum 7) /\
  get t "id" <> PValue VUndefined /\
  attr_one (fst (set t "id" (VNum 8))) "key" = VNum 8 /\
  hasChanged (fst (set t "id" (VNum 8))) "key" = true /\
  set t "id" (VNum 8) <> (t, true).
Proof.
  cbv zeta. split; [apply reach_construct|]. split.
  { simpl. intros [H|[H|H]]; [discriminate H | discriminate H | exact H]. }
  repeat split; try discriminate.
Qed.

(** C9.  The traps look a name up with [in], which also finds what every
    object inherits.  [constructor] is no attribute of the schema and no
    method of the instance, yet it does not read as [undefined], and
    writing it is no no-op: the write creates the key in [current],
    records a baseline in [original] and marks the name dirty, and
    [Object.keys] lists it from then on. *)
Theorem inherited_name_is_tracked :
  let t := construct TestA None [] in
  let t' := fst (set t "constructor" (VNum 1)) in
  ~ In "constructor" (map fst (attrs TestA)) /\
  hasOwnProperty (methods t) "constructor" = false /\
  get t "constructor" = PValue (VNative "constructor") /\
  get t "constructor" <> PValue VUndefined /\
  set t "constructor" (VNum 1) <> (t, true) /\
  current (values t') = current (values t) ++ [("constructor", VNum 1)] /\
  original (values t') = [("constructor", VNative "constructor")] /\
  hasChanged t' "constructor" = true /\
  keys (changed_all t') = ["constructor"] /\
  get t' "constructor" = PValue (VNum 1).
Proof.
  cbv zeta. split.
  { simpl. intros [H|[H|H]]; [discriminate H | discriminate H | exact H]. }
  repeat split; discriminate.
Qed.

(* ===================================================================== *)
(** ** Validation *)
(* ===================================================================== *)

Lemma validate_prop_collects (cur : jsobj) (prop : string)
  (vs : list validation) (failed : list (string * value)) :
  forallb is_validator vs = true ->
  validate_prop cur prop vs failed =
  Ok (failed ++
      map (fun v => (prop, nth 1 (verdict cur prop v) VUndefined))
          (filter (fails cur prop) vs)).
Proof.
  revert failed. induction vs as [|v vs IH]; intros failed Hwf; simpl.
  - now rewrite app_nil_r.
  - simpl in Hwf. apply andb_true_iff in Hwf. destruct Hwf as [Hv Hvs].
    destruct v as [fn | fn extra | shown]; [| |discriminate Hv];
      unfold fails; simpl;
      match goal with
      | |- context [negb (truthy ?x)] => destruct (negb (truthy x))
      end; rewrite IH by exact Hvs; simpl;
      try rewrite <- app_assoc; reflexivity.
Qed.

Lemma validate_all_collects (cur : jsobj)
  (vals : list (string * list validation)) (failed : list (string * value)) :
  forallb (fun p => forallb is_validator (snd p)) vals = true ->
  validate_all cur vals failed =
  Ok (failed ++
      flat_map
        (fun p =>
           map (fun v => (fst p, nth 1 (verdict cur (fst p) v) VUndefined))
               (filter (fails cur (fst p)) (snd p)))
        vals).
Proof.
  revert failed. induction vals as [|[prop vs] vals IH]; intros failed Hwf;
    simpl.
  - now rewrite app_nil_r.
  - simpl in Hwf. apply andb_true_iff in Hwf. destruct Hwf as [Hv Hvs].
    rewrite validate_prop_collects by exact Hv.
    rewrite IH by exact Hvs. now rewrite <- app_assoc.
Qed.

Lemma expected_failures_length (self : ModelInstance) :
  length (expected_failures self) = failing_validators self.
Proof.
  unfold expected_failures, failing_validators.
  induction (validations (proto self)) as [|p l IH]; simpl; auto.
  now rewrite length_app, length_map, IH.
Qed.

(** C6. When every validation entry is a validator and [N] of them fail
    on the instance, [validate()] consults all of them: for [N > 0] it
    throws one [ValidationError] whose list has exactly [N] pairs, the
    failures of every attribute in declaration order; for [N = 0] it
    returns normally. *)
Theorem validate_reports_every_failure (self : ModelInstance) (N : nat) :
  validators_only (proto self) = true ->
  failing_validators self = N ->
  (0 < N ->
   exists failed,
     validate self = Fail (ValidationError failed) /\
     length failed = N /\
     failed = expected_failures self) /\
  (N = 0 -> validate self = Ok tt).
Proof.
  intros Hwf HN. unfold validate.
  rewrite validate_all_collects by exact Hwf. simpl.
  fold (expected_failures self).
  rewrite expected_failures_length, HN. split.
  - intro Hpos. exists (expected_failures self).
    destruct (Nat.ltb_spec 0 N); [|lia].
    now rewrite expected_failures_length.
  - intros ->. reflexivity.
Qed.

Lemma validate_reports_every_failure_witness :
  (0 < 2 ->
   exists failed,
     validate two_failures = Fail (ValidationError failed) /\
     length failed = 2 /\
     failed = expected_failures two_failures) /\
  (2 = 0 -> validate two_failures = Ok tt).
Proof.
  apply (validate_reports_every_failure two_failures 2); reflexivity.
Defined.

(* ===================================================================== *)
(** ** Running coroutines *)
(* ===================================================================== *)

Section Run.

Context {S : Type} (conn : Connection S).

Lemma run_bind {A B : Type} (p : prog A) (f : A -> prog B) (s : S) :
  run conn (bind p f) s =
  match run conn p s with
  | (Ok a, sent, s1) =>
      let '(out, sent2, s2) := run conn (f a) s1 in (out, sent ++ sent2, s2)
  | (Fail e, sent, s1) => (Fail e, sent, s1)
  end.
Proof.
  revert s. induction p as [a | e | q params k IH]; intro s; simpl.
  - now destruct (run conn (f a) s) as [[out sent2] s2].
  - reflexivity.
  - destruct (respond conn q params s) as [r s1]. rewrite IH.
    destruct (run conn (k r) s1) as [[[a|e] sent1] s2]; [|reflexivity].
    now destruct (run conn (f a) s2) as [[out sent2] s3].
Qed.

Lemma run_try_catch {A : Type} (p : prog A) (handler : error -> prog A)
  (s : S) :
  run conn (try_catch p handler) s =
  match run conn p s with
  | (Ok a, sent, s1) => (Ok a, sent, s1)
  | (Fail e, sent, s1) =>
      let '(out, sent2, s2) := run conn (handler e) s1 in
      (out, sent ++ sent2, s2)
  end.
Proof.
  revert s. induction p as [a | e | q params k IH]; intro s; simpl.
  - reflexivity.
  - now destruct (run conn (handler e) s) as [[out sent2] s2].
  - destruct (respond conn q params s) as [r s1]. rewrite IH.
    destruct (run conn (k r) s1) as [[[a|e] sent1] s2]; [reflexivity|].
    now destruct (run conn (handler e) s2) as [[out sent2] s3].
Qed.

Lemma run_queryAsync (q : statement) (params : list value) (s : S) :
  run conn (queryAsync q params) s =
  (fst (respond conn q params s), [(q, params)], snd (respond conn q params s)).
Proof.
  unfold queryAsync. simpl.
  destruct (respond conn q params s) as [[res|e] s1]; reflexivity.
Qed.

End Run.

(* ===================================================================== *)
(** ** Calling a method through the proxy *)
(* ===================================================================== *)

Lemma set_proto (self : ModelInstance) (name : string) (val : value) :
  proto (fst (set self name val)) = proto self.
Proof.
  destruct (js_in (alias self name) (current (values self))) eqn:Hin.
  - now destruct (set_tracked self name val Hin) as (_ & _ & Hm).
  - now rewrite set_untracked.
Qed.

(** A write creates no name that [in] did not find before. *)
Lemma set_keeps_in (self : ModelInstance) (name n : string) (val : value) :
  js_in n (current (values (fst (set self name val)))) =
  js_in n (current (values self)).
Proof.
  destruct (js_in (alias self name) (current (values self))) eqn:Hin.
  - destruct (set_tracked self name val Hin) as (Hcur & _ & _).
    rewrite Hcur. unfold js_in. rewrite hasOwnProperty_put.
    destruct (String.eqb_spec n (alias self name)) as [->|_]; [|reflexivity].
    simpl. unfold js_in in Hin. now rewrite Hin.
  - now rewrite set_untracked.
Qed.

Lemma methods_own_base (obj : ModelInstance) (b : base_method) :
  hasOwnProperty (methods obj) (base_name b) = true.
Proof.
  unfold methods.
  rewrite (own_fold_put (fun x => x) (fun _ => VObj 0)).
  rewrite !existsb_app. destruct b; simpl; now rewrite ?orb_true_r.
Qed.

(** With no attribute and no model method of its name in the way, a call
    reaches the base method. *)
Lemma call_base {R : Runtime} (obj : ModelInstance) (b : base_method) :
  base_dispatch obj b -> call obj b = base_call b obj.
Proof.
  intros [Hin Hm]. unfold call, get.
  assert (H1 : String.eqb (base_name b) "__model__" = false)
    by (destruct b; reflexivity).
  assert (H2 : String.eqb (base_name b) "__self__" = false)
    by (destruct b; reflexivity).
  assert (Ha : alias obj (base_name b) = base_name b)
    by (unfold alias; destruct b; reflexivity).
  rewrite H1, H2, Ha, Hin.
  pose proof (methods_own_base obj b) as Ho.
  rewrite (hasOwnProperty_in _ _ Ho).
  unfold hasOwnProperty in Ho.
  destruct (own (methods obj) (base_name b)); [|discriminate].
  now rewrite Hm.
Qed.

Lemma undisturbed_call {R : Runtime} (obj : ModelInstance)
  (bs : list base_method) (b : base_method) :
  undisturbed obj bs -> In b bs -> call obj b = base_call b obj.
Proof.
  intros H Hb. apply call_base.
  exact (proj1 (Forall_forall _ _) H b Hb).
Qed.

Lemma base_dispatch_checkpoint (obj : ModelInstance) (b : base_method) :
  base_dispatch obj b -> base_dispatch (checkpoint obj) b.
Proof. intro H. exact H. Qed.

Lemma base_dispatch_set (obj : ModelInstance) (b : base_method)
  (name : string) (val : value) :
  base_dispatch obj b -> base_dispatch (fst (set obj name val)) b.
Proof.
  intros [Hin Hm]. split.
  - now rewrite set_keeps_in.
  - now rewrite set_proto.
Qed.

Lemma base_dispatch_merge (obj : ModelInstance) (b : base_method)
  (row : jsobj) :
  base_dispatch obj b -> base_dispatch (DAO.merge obj row) b.
Proof.
  unfold DAO.merge. revert obj.
  induction (keys row) as [|k l IH]; intros obj H; simpl; [exact H|].
  apply IH. now apply base_dispatch_set.
Qed.

Lemma base_dispatch_merge_first (obj : ModelInstance) (b : base_method)
  (res : rows) :
  base_dispatch obj b -> base_dispatch (DAO.merge_first obj res) b.
Proof.
  destruct res as [|row res]; simpl; [auto | apply base_dispatch_merge].
Qed.

Lemma run_hooks_proto (hs : option (list hook)) (obj obj1 : ModelInstance) :
  run_hooks hs obj = Ok obj1 -> proto obj1 = proto obj.
Proof.
  unfold run_hooks. destruct hs as [l|].
  - destruct (call_hooks l (values obj)); [|discriminate].
    intro H. injection H as <-. reflexivity.
  - intro H. injection H as <-. reflexivity.
Qed.

(* ===================================================================== *)
(** ** The DAO *)
(* ===================================================================== *)

(** C3 as stated fails: when the connection answers the SELECT of [get]
    with two rows, [get] does not fail, it returns [null]. *)
Lemma get_two_rows_returns_null :
  run scripted (DAO.get users_dao (VNum 1) None)
      [Ok [returned_row; returned_row]] =
  (Ok None, [(DAO.select_by_id users_dao None, [VNum 1])], []).
Proof. reflexivity. Qed.

(** C3, amended.  When the connection answers the SELECT, [get] returns an
    instance constructed from the row if there is exactly one row, and
    [null] for any other number of rows, zero or more than one. *)
Theorem get_one_row_or_null {S : Type} (conn : Connection S)
  (self : DAO.t) (id : value) (opts : option Opts) (s s1 : S) (res : rows) :
  respond conn (DAO.select_by_id self opts) [id] s = (Ok res, s1) ->
  run conn (DAO.get self id opts) s =
  (Ok (match res with
       | [row] => Some (construct (DAO.model self) (Some row) [])
       | _ => None
       end),
   [(DAO.select_by_id self opts, [id])], s1).
Proof.
  intro H. unfold DAO.get. rewrite run_bind, run_queryAsync, H. simpl.
  destruct res as [|row [|row' res]]; reflexivity.
Qed.

Lemma get_one_row_or_null_witness :
  run scripted (DAO.get users_dao (VNum 1) None) [Ok [returned_row]] =
  (Ok (Some (construct Users (Some returned_row) [])),
   [(DAO.select_by_id users_dao None, [VNum 1])], []).
Proof.
  exact (get_one_row_or_null scripted users_dao (VNum 1) None
           [Ok [returned_row]] [] [returned_row] eq_refl).
Defined.




(** C2. [save] on a schema whose attribute [userName] is stored under the
    column [user_name]: the INSERT names the column, the connection returns
    one row keyed by column names, and the merge writes [id] but drops
    [user_name], so [userName] keeps its old value.  The constructor, given
    the same row, does translate the column back. *)
Theorem save_drops_aliased_column :
  let out := run scripted
                 (DAO.save (R := no_functions) users_dao new_user None)
                 [Ok [returned_row]] in
  snd (fst out) =
    [(Insert (Some "users") [("user_name", "$1")] "*", [VStr "old"])] /\
  (exists obj,
     fst (fst out) = Ok obj /\
     attr_one obj "id" = VNum 1 /\
     attr_one obj "userName" = VStr "old") /\
  attr_one (construct Users (Some returned_row) []) "userName" = VStr "new".
Proof.
  cbv zeta. split; [reflexivity|]. split; [|reflexivity].
  eexists. split; [reflexivity|]. split; reflexivity.
Qed.

(** C5 as stated fails: the unit of work fails with "boom", the connection
    then rejects the ROLLBACK, and what [inTransaction] raises is the
    ROLLBACK's failure, not the original one. *)
Lemma failed_rollback_replaces_failure :
  run scripted (DAO.inTransaction (Throw (A := unit) (Error "boom")) None)
      [Ok []; Fail (Error "connection lost")] =
  (Fail (Error "connection lost"),
   [(Sql "BEGIN;", []); (Sql "ROLLBACK;", [])], []) /\
  Error "connection lost" <> Error "boom".
Proof. split; [reflexivity | discriminate]. Qed.

(** C5, amended.  [inTransaction] sends BEGIN first.  When BEGIN is
    accepted the unit of work runs next.  If it succeeds, the closing
    statement (ROLLBACK for [readOnly], COMMIT otherwise) follows, and once
    that is accepted the result of the unit of work is returned.  If it
    fails, ROLLBACK follows, and the original failure is raised again when
    the ROLLBACK is accepted; when the ROLLBACK is itself rejected, its
    failure is raised instead. *)
Theorem inTransaction_brackets_unit_of_work {S A : Type}
  (conn : Connection S) (fn : prog A) (opts : option Opts) (s : S) :
  (exists rest,
     snd (fst (run conn (DAO.inTransaction fn opts) s)) =
     (Sql "BEGIN;", []) :: rest) /\
  forall began s1 out sent s2,
    respond conn (Sql "BEGIN;") [] s = (Ok began, s1) ->
    run conn fn s1 = (out, sent, s2) ->
    match out with
    | Ok res =>
        forall done s3,
          respond conn (DAO.closing opts) [] s2 = (Ok done, s3) ->
          run conn (DAO.inTransaction fn opts) s =
          (Ok res, (Sql "BEGIN;", []) :: sent ++ [(DAO.closing opts, [])], s3)
    | Fail ex =>
        forall undone s3,
          respond conn (Sql "ROLLBACK;") [] s2 = (undone, s3) ->
          run conn (DAO.inTransaction fn opts) s =
          (match undone with Ok _ => Fail ex | Fail ex' => Fail ex' end,
           (Sql "BEGIN;", []) :: sent ++ [(Sql "ROLLBACK;", [])], s3)
    end.
Proof.
  split.
  - unfold DAO.inTransaction. simpl.
    destruct (respond conn (Sql "BEGIN;") [] s) as [r s1].
    match goal with
    | |- context [run conn ?p s1] => destruct (run conn p s1) as [[o t] s2]
    end. simpl. eauto.
  - intros began s1 out sent s2 Hbegin Hfn.
    assert (Hclosing : forall (B : Type) (k : rows -> prog B),
      bind (if match opts with Some o => o_readOnly o | None => false end
            then queryAsync (Sql "ROLLBACK;") []
            else queryAsync (Sql "COMMIT;") []) k =
      bind (queryAsync (DAO.closing opts) []) k).
    { intros B k. unfold DAO.closing.
      now destruct (match opts with Some o => o_readOnly o | None => false end). }
    unfold DAO.inTransaction.
    rewrite run_try_catch, run_bind, run_queryAsync, Hbegin. simpl.
    rewrite run_bind, Hfn.
    destruct out as [res | ex].
    + intros done s3 Hdone. rewrite Hclosing, run_bind, run_queryAsync, Hdone.
      simpl. reflexivity.
    + intros undone s3 Hundone. simpl. rewrite Hundone.
      destruct undone; simpl; reflexivity.
Qed.

Lemma inTransaction_brackets_unit_of_work_witness :
  run scripted (DAO.inTransaction (Throw (A := unit) (Error "boom")) None)
      [Ok []; Ok []] =
  (Fail (Error "boom"), [(Sql "BEGIN;", []); (Sql "ROLLBACK;", [])], []).
Proof.
  exact (proj2 (inTransaction_brackets_unit_of_work scripted
                  (Throw (A := unit) (Error "boom")) None [Ok []; Ok []])
           [] [Ok []] (Fail (Error "boom")) [] [Ok []] eq_refl eq_refl
           (Ok []) [] eq_refl).
Defined.

(* ===================================================================== *)
(** ** The INSERT of [save] *)
(* ===================================================================== *)

Lemma own_fold_put_keys (g : string -> value) (l : list string)
  (acc : jsobj) (k : string) :
  own (fold_left (fun o x => put o x (g x)) l acc) k =
  if existsb (String.eqb k) l then Some (g k) else own acc k.
Proof.
  revert acc. induction l as [|x l IH]; intro acc; simpl; [reflexivity|].
  rewrite IH. destruct (String.eqb_spec k x) as [->|Hne]; simpl.
  - rewrite own_put_same. now destruct (existsb (String.eqb x) l).
  - rewrite own_put_other by congruence. reflexivity.
Qed.


Lemma columnName_declared (m : Model) (n : string) :
  In n (map fst (attrs m)) -> exists c, DAO.columnName m n = Ok c.
Proof.
  intro Hin. unfold DAO.columnName, find_attr.
  destruct (find (fun p => String.eqb n (fst p)) (attrs m)) eqn:E.
  - eauto.
  - exfalso. apply in_map_iff in Hin. destruct Hin as (p & <- & Hp).
    apply (find_none _ _ E) in Hp. now rewrite String.eqb_refl in Hp.
Qed.

Lemma insert_loop_spec (m : Model) (copy : jsobj) (names : list string) :
  (forall n, In n names -> In n (map fst (attrs m))) ->
  forall p sets vals,
    DAO.insert_loop m copy names p sets vals =
    Ok (sets ++ DAO.set_clauses m (filter (DAO.supplied m copy) names) p,
        vals ++ map (js_get copy) (filter (DAO.supplied m copy) names)).
Proof.
  induction names as [|n names IH]; intros Hdecl p sets vals; simpl.
  - now rewrite !app_nil_r.
  - destruct (columnName_declared m n (Hdecl n (or_introl eq_refl)))
      as [c Hc].
    rewrite Hc.
    assert (Hs : DAO.supplied m copy n =
                 negb (DAO.is_id m n && nullish (js_get copy n)))
      by reflexivity.
    destruct (DAO.is_id m n && nullish (js_get copy n));
      rewrite Hs; simpl.
    + apply IH. intros k Hk. apply Hdecl. now right.
    + rewrite Hc, IH by (intros k Hk; apply Hdecl; now right).
      now rewrite <- !app_assoc.
Qed.




Lemma columnName_column_of (m : Model) (n : string) :
  In n (map fst (attrs m)) -> DAO.columnName m n = Ok (column_of m n).
Proof.
  intro Hin. unfold DAO.columnName, column_of, find_attr.
  destruct (find (fun p => String.eqb n (fst p)) (attrs m)) as [[k a]|] eqn:E.
  - simpl. destruct a as [[c|] i d t]; simpl; [|reflexivity].
    now destruct (String.eqb c "").
  - exfalso. apply in_map_iff in Hin. destruct Hin as (p & <- & Hp).
    apply (find_none _ _ E) in Hp. now rewrite String.eqb_refl in Hp.
Qed.

Lemma set_clauses_combine (m : Model) (l : list string) :
  (forall n, In n l -> In n (map fst (attrs m))) ->
  forall p,
    DAO.set_clauses m l p =
    combine (map (column_of m) l) (map placeholder (seq (S p) (length l))).
Proof.
  induction l as [|n l IH]; intros Hdecl p; simpl; [reflexivity|].
  rewrite columnName_column_of by (apply Hdecl; now left).
  rewrite IH by (intros k Hk; apply Hdecl; now right). reflexivity.
Qed.







(** The check is on presence, not truthiness: an identity of zero and an
    empty string are both sent. *)
Example insert_keeps_zero_identity :
  DAO.insert_statement (R := no_functions) users_dao user_zero None =
  Ok (Insert (Some "users") [("id", "$1"); ("user_name", "$2")] "*",
      [VNum 0; VStr ""]).
Proof. reflexivity. Qed.

(** When the omission leaves no attribute, or the schema names no table,
    the builder refuses the statement and [save] fails before anything is
    sent. *)
Lemma insert_needs_table_and_set {R : Runtime}
  (self : DAO.t) (obj : ModelInstance) (opts : option Opts) :
  base_dispatch obj Attr ->
  (forall n, In n (keys (attr_all obj)) ->
             In n (map fst (attrs (proto obj)))) ->
  DAO.tableRef (DAO.schema_of self opts) (table (proto obj)) = None \/
  (forall n, In n (keys (attr_all obj)) ->
             DAO.supplied (proto obj) (attr_all obj) n = false) ->
  exists msg, DAO.insert_statement self obj opts = Fail (Error msg).
Proof.
  intros Hbase Hdecl H. unfold DAO.insert_statement.
  rewrite (call_base obj Attr Hbase). cbn [base_call].
  unfold DAO.insert_from. cbn [object_keys object_of].
  destruct (DAO.tableRef (DAO.schema_of self opts) (table (proto obj)))
    as [tbl|] eqn:Htbl; [|eauto].
  destruct H as [H|H]; [discriminate|].
  rewrite (insert_loop_spec _ _ _ Hdecl). cbn [app].
  assert (Hnone : filter (DAO.supplied (proto obj) (attr_all obj))
                    (keys (attr_all obj)) = []).
  { induction (keys (attr_all obj)) as [|k l IH]; [reflexivity|].
    simpl. rewrite (H k) by now left. apply IH.
    - intros n Hn. apply Hdecl. now right.
    - intros n Hn. apply H. now right. }
  rewrite Hnone. simpl. destruct (negb _); eauto.
Qed.

(* ===================================================================== *)
(** ** The streaming [query] *)
(* ===================================================================== *)

Lemma deliver_all_app (self : DAO.t) (st : DAO.Query)
  (a b : list DAO.signal) :
  DAO.deliver_all self st (a ++ b) =
  match DAO.deliver_all self st a with
  | Ok st' => DAO.deliver_all self st' b
  | Fail e => Fail e
  end.
Proof.
  revert st. induction a as [|sg a IH]; intro st; simpl; [reflexivity|].
  destruct (DAO.deliver self st sg); [apply IH | reflexivity].
Qed.

Lemma collecting_kept (self : DAO.t) (sgs : list DAO.signal) :
  forallb row_or_collect sgs = true ->
  forall st, collecting st ->
  exists st', DAO.deliver_all self st sgs = Ok st' /\ collecting st'.
Proof.
  induction sgs as [|sg sgs IH]; intros Hq st Hst; simpl.
  - eauto.
  - simpl in Hq. apply andb_true_iff in Hq. destruct Hq as [Hsg Hq].
    destruct Hst as (Hu & Hp & Hl & Hs).
    destruct sg as [row | | err | | ]; try discriminate Hsg; simpl.
    + unfold DAO.on_row. rewrite Hu.
      destruct (DAO.collectResults st) eqn:Hc.
      * destruct (Hl eq_refl) as [l ->]. apply IH; [exact Hq|].
        unfold collecting, DAO.progress, DAO.push. rewrite Hs. simpl.
        rewrite Hp. simpl. repeat split; eauto.
      * apply IH; [exact Hq|].
        unfold collecting, DAO.progress. rewrite Hp. simpl.
        repeat split; auto. congruence.
    + apply IH; [exact Hq|].
      unfold collecting, DAO.call_collectResults. simpl.
      repeat split; eauto.
Qed.

Lemma rows_collected (self : DAO.t) (after : list jsobj) :
  forall st l,
    DAO.uniqueResult st = false ->
    DAO.collectResults st = true ->
    DAO.promise st = DAO.Pending ->
    DAO.shared st = false ->
    DAO.res st = DAO.ResList l ->
    exists st',
      DAO.deliver_all self st (map DAO.Row after) = Ok st' /\
      DAO.uniqueResult st' = false /\
      DAO.collectResults st' = true /\
      DAO.promise st' = DAO.Pending /\
      DAO.res st' =
        DAO.ResList
          (l ++ map (fun row => construct (DAO.model self) (Some row) [])
                    after) /\
      DAO.shared st' = false /\
      DAO.progressed st' =
        DAO.progressed st
        ++ map (fun row => construct (DAO.model self) (Some row) []) after.
Proof.
  induction after as [|row after IH]; intros st l Hu Hc Hp Hs Hr; simpl.
  - exists st. rewrite !app_nil_r. auto 8.
  - unfold DAO.on_row. rewrite Hu, Hc, Hr.
    set (m := construct (DAO.model self) (Some row) []).
    assert (Hst : DAO.progress (DAO.push st l m) m =
                  {| DAO.uniqueResult := false; DAO.collectResults := true;
                     DAO.res := DAO.ResList (l ++ [m]);
                     DAO.promise := DAO.Pending; DAO.shared := false;
                     DAO.progressed := DAO.progressed st ++ [m];
                     DAO.sent := DAO.sent st |}).
    { unfold DAO.progress, DAO.push. rewrite Hs. simpl. rewrite Hp, Hu, Hc.
      reflexivity. }
    rewrite Hst.
    match goal with
    | |- context [DAO.deliver_all self ?s _] =>
        destruct (IH s (l ++ [m]) eq_refl eq_refl eq_refl eq_refl eq_refl)
          as (st' & Hrun & Hu' & Hc' & Hp' & Hr' & Hs' & Hg')
    end.
    exists st'. split; [exact Hrun|]. repeat split; auto.
    + rewrite Hr', <- app_assoc. reflexivity.
    + rewrite Hg'. simpl. now rewrite <- app_assoc.
Qed.



(* ===================================================================== *)
(** ** More on dirty tracking *)
(* ===================================================================== *)





Lemma set_frame (self : ModelInstance) (name n : string)
  (val : value) :
  n <> alias self name ->
  attr_one (fst (set self name val)) n = attr_one self n /\
  original_one (fst (set self name val)) n = original_one self n /\
  hasChanged (fst (set self name val)) n = hasChanged self n.
Proof.
  intro Hne.
  destruct (js_in (alias self name) (current (values self))) eqn:Hin.
  2:{ rewrite set_untracked by exact Hin. auto. }
  destruct (set_tracked self name val Hin) as (Hcur & Horig & _).
  unfold attr_one, original_one, hasChanged, hasOwnProperty, js_get.
  rewrite Hcur, Horig.
  rewrite own_put_other by congruence.
  destruct (negb (hasOwnProperty (original (values self)) (alias self name))).
  - rewrite own_put_other by congruence. auto.
  - destruct (strict_eq val (js_get (original (values self)) (alias self name))).
    + rewrite own_delete_other by congruence. auto.
    + auto.
Qed.






(** [changed()] maps exactly the dirty names, each to its current value. *)
Lemma changed_all_lookup (self : ModelInstance) (n : string) :
  own (changed_all self) n =
  if hasChanged self n then Some (attr_one self n) else None.
Proof.
  unfold changed_all. rewrite own_fold_put_keys, existsb_keys.
  reflexivity.
Qed.



(* ===================================================================== *)
(** ** Construction *)
(* ===================================================================== *)

(** The value a loop of writes leaves under a key it wrote. *)
Lemma own_fold_put_value {A : Type} (key : A -> string) (val : A -> value)
  (l : list A) (acc : jsobj) (k : string) :
  existsb (fun x => String.eqb k (key x)) l = true ->
  exists x, In x l /\ key x = k /\
            own (fold_left (fun o x => put o (key x) (val x)) l acc) k
            = Some (val x).
Proof.
  revert acc. induction l as [|y l IH]; intros acc H; simpl in *;
    [discriminate|].
  destruct (existsb (fun x => String.eqb k (key x)) l) eqn:El.
  - destruct (IH (put acc (key y) (val y)) eq_refl) as (x & Hx & Hk & Hv).
    exists x. auto.
  - rewrite orb_false_r in H. apply String.eqb_eq in H. subst k.
    exists y. repeat split; auto.
    assert (Hno : forall o,
      own (fold_left (fun o x => put o (key x) (val x)) l o) (key y)
      = own o (key y)).
    { clear IH. induction l as [|z l IHl]; intro o; simpl; [reflexivity|].
      simpl in El. apply orb_false_iff in El. destruct El as [Ez El].
      rewrite IHl by exact El. apply own_put_other.
      apply String.eqb_neq in Ez. congruence. }
    rewrite Hno. apply own_put_same.
Qed.

Lemma existsb_names {A : Type} (l : list (string * A)) (n : string) :
  In n (map fst l) ->
  existsb (fun p => String.eqb n (fst p)) l = true.
Proof.
  intro H. apply in_map_iff in H. destruct H as (p & <- & Hp).
  apply existsb_exists. exists p. split; [exact Hp | apply String.eqb_refl].
Qed.

(** What the constructor leaves under a schema attribute. *)
Lemma construct_value (m : Model) (given : option jsobj)
  (argv : list value) (n : string) :
  In n (map fst (attrs m)) ->
  exists a, In (n, a) (attrs m) /\
            hasOwnProperty (current (values (construct m given argv))) n
            = true /\
            attr_one (construct m given argv) n = initial_value n a given.
Proof.
  intro Hn. unfold construct, attr_one, hasOwnProperty, js_get.
  cbn [values current].
  destruct (own_fold_put_value fst
              (fun p => initial_value (fst p) (snd p) given)
              (attrs m)
              (current
                 match initializer m with
                 | Some init =>
                     init {| current := []; original := [] |} given argv
                 | None => {| current := []; original := [] |}
                 end)
              n (existsb_names _ _ Hn))
    as ([n' a] & Hin & Hk & Hv).
  simpl in Hk. subst n'. exists a. rewrite Hv. auto.
Qed.

Lemma reachable_has_attribute (m : Model) (self : ModelInstance)
  (n : string) :
  reachable m self ->
  In n (map fst (attrs m)) ->
  hasOwnProperty (current (values self)) n = true.
Proof.
  intros Hr Hn.
  induction Hr as [given argv | self name val Hr IH | self Hr IH].
  - destruct (construct_value m given argv n Hn) as (a & _ & H & _).
    exact H.
  - destruct (js_in (alias self name) (current (values self))) eqn:Hin.
    + destruct (set_tracked self name val Hin) as (Hcur & _ & _).
      rewrite Hcur, hasOwnProperty_put, IH. apply orb_true_r.
    + now rewrite set_untracked.
  - exact IH.
Qed.


Lemma travelled_reachable : reachable Users travelled.
Proof.
  change (reachable Users
            (fst (set (fst (set (construct Users (Some returned_row) [])
                                "userName" (VStr "x")))
                      "id" (VNum 9)))).
  apply reach_set. apply reach_set. apply reach_construct.
Defined.






Lemma with_column_twice (n n' : string) (a : attr) :
  with_column n' (with_column n a) = with_column n a.
Proof.
  unfold with_column.
  destruct (attr_column a) eqn:E; [now rewrite E | reflexivity].
Qed.

(** What the loop of the constructor leaves in a descriptor object: the
    column it came with, else the name of the first attribute that was
    given the object. *)
Lemma default_columns_spec (raw : list (string * nat)) :
  forall (h : descriptors) (ref : nat),
    default_columns raw h ref =
    match first_holder raw ref with
    | Some n => with_column n (h ref)
    | None => h ref
    end.
Proof.
  unfold default_columns, first_holder.
  induction raw as [|[n r] raw IH]; intros h ref; simpl; [reflexivity|].
  rewrite IH. unfold write_descriptor. rewrite Nat.eqb_sym.
  destruct (Nat.eqb_spec r ref) as [->|Hne]; simpl.
  - destruct (find (fun p => Nat.eqb (snd p) ref) raw);
      [apply with_column_twice | reflexivity].
  - reflexivity.
Qed.

Lemma first_holder_unshared (raw : list (string * nat)) (n : string)
  (ref : nat) :
  NoDup (map snd raw) -> In (n, ref) raw -> first_holder raw ref = Some n.
Proof.
  unfold first_holder.
  induction raw as [|[k r] raw IH]; simpl; intros Hnd Hin; [contradiction|].
  inversion Hnd as [|? ? Hnotin Hnd']; subst.
  destruct Hin as [Heq|Hin].
  - injection Heq as -> ->. now rewrite Nat.eqb_refl.
  - destruct (Nat.eqb_spec r ref) as [->|_]; [|now apply IH].
    exfalso. apply Hnotin. apply in_map_iff. now exists (n, ref).
Qed.

(** With one descriptor object per attribute, [define_shared] builds the
    schema [define] builds. *)
Lemma define_unshared (h : descriptors) (raw : list (string * nat))
  (opts : option ModelOpts) :
  NoDup (map snd raw) ->
  fst (define_shared h raw opts) =
  define (map (fun p => (fst p, h (snd p))) raw) opts.
Proof.
  intro Hnd. unfold define_shared, define. simpl. f_equal.
  rewrite map_map. apply map_ext_in. intros [n ref] Hin. simpl.
  rewrite default_columns_spec.
  now rewrite (first_holder_unshared raw n ref Hnd Hin).
Qed.



(** So two attributes given one descriptor object read the same column:
    a row that has [first] fills [second] too. *)
Example shared_descriptor_shares_column :
  attr_one (construct Twins (Some [("first", VNum 1)]) []) "second" = VNum 1 /\
  find_attr Twins "second" = Some (column_attr "first").
Proof. split; reflexivity. Qed.

(* ===================================================================== *)
(** ** The identity attribute *)
(* ===================================================================== *)

Lemma find_id_app (l : list (string * attr)) (p : string * attr) :
  find_id (l ++ [p]) = if attr_id (snd p) then Some (fst p) else find_id l.
Proof. unfold find_id. now rewrite fold_left_app. Qed.

(** X9. The identity of a defined schema is one of its attributes, flagged
    [id]; there is none exactly when no attribute is flagged. *)
Theorem define_identity (raw : list (string * attr))
  (opts : option ModelOpts) :
  (forall i, id (define raw opts) = Some i ->
             exists a, In (i, a) raw /\ attr_id a = true) /\
  (id (define raw opts) = None <->
   forall p, In p raw -> attr_id (snd p) = false).
Proof.
  simpl. induction raw as [|[n a] raw IH] using rev_ind.
  - split; [discriminate|]. split; [contradiction | reflexivity].
  - rewrite find_id_app. simpl. destruct IH as [IH1 IH2].
    destruct (attr_id a) eqn:Ea.
    + split.
      * intros i Hi. injection Hi as <-. exists a. split; [|exact Ea].
        apply in_or_app. right. now left.
      * split; [discriminate|]. intro H.
        assert (Hl : In (n, a) (raw ++ [(n, a)]))
          by (apply in_or_app; right; now left).
        apply H in Hl. simpl in Hl. congruence.
    + split.
      * intros i Hi. destruct (IH1 i Hi) as (b & Hb & Hf).
        exists b. split; [apply in_or_app; now left | exact Hf].
      * rewrite IH2. split.
        -- intros H p Hp. apply in_app_or in Hp. destruct Hp as [Hp|[<-|[]]];
             [now apply H | exact Ea].
        -- intros H p Hp. apply H. apply in_or_app. now left.
Qed.

(** X10. [id] is another name for the identity attribute: reading and writing
    [id] is reading and writing that attribute. *)
Theorem id_is_identity_attribute (self : ModelInstance) (i : string)
  (val : value) :
  id (proto self) = Some i ->
  i <> "" ->
  i <> "__model__" ->
  i <> "__self__" ->
  get self "id" = get self i /\ set self "id" val = set self i val.
Proof.
  intros Hid Hne Hm Hs.
  assert (Ha : alias self "id" = i).
  { unfold alias. rewrite Hid. simpl.
    apply String.eqb_neq in Hne. now rewrite Hne. }
  assert (Hi : alias self i = i).
  { unfold alias. destruct (String.eqb_spec i "id") as [->|_]; auto. }
  split.
  - unfold get. apply String.eqb_neq in Hm. apply String.eqb_neq in Hs.
    rewrite Hm, Hs, Ha, Hi. reflexivity.
  - unfold set. rewrite Ha, Hi. reflexivity.
Qed.

Lemma id_is_identity_attribute_witness :
  get (construct Keyed (Some [("key", VNum 7)]) []) "id" =
    get (construct Keyed (Some [("key", VNum 7)]) []) "key" /\
  set (construct Keyed (Some [("key", VNum 7)]) []) "id" (VNum 8) =
    set (construct Keyed (Some [("key", VNum 7)]) []) "key" (VNum 8).
Proof.
  apply (id_is_identity_attribute
           (construct Keyed (Some [("key", VNum 7)]) []) "key" (VNum 8));
    [reflexivity | discriminate | discriminate | discriminate].
Defined.

(* ===================================================================== *)
(** ** Validators and malformed validations *)
(* ===================================================================== *)

(** X11. What the type validators accept, whatever arguments follow the value:
    [isString] strings, [isNumber] numbers including [NaN], [isBoolean]
    the two booleans, [isNotNull] everything but [null] ([undefined]
    included). *)
Theorem type_validators_accept (v : value) (rest : list value) :
  (passes (isString (v :: rest)) = true <-> exists s, v = VStr s) /\
  (passes (isNumber (v :: rest)) = true <->
   (exists n, v = VNum n) \/ v = VNaN) /\
  (passes (isBoolean (v :: rest)) = true <-> exists b, v = VBool b) /\
  (passes (isNotNull (v :: rest)) = true <-> v <> VNull).
Proof.
  unfold passes, isString, isNumber, isBoolean, isNotNull.
  repeat split; destruct v as [| |[|]| | | | |]; simpl; intro H;
    try discriminate; try congruence; eauto;
    try (destruct H as [x H]; discriminate);
    try (destruct H as [[x H]|H]; discriminate).
Qed.

(** A rejected value comes with the validator's message. *)
Theorem type_validators_explain (v : value) (rest : list value) :
  (passes (isString (v :: rest)) = false ->
   isString (v :: rest) = [VBool false; VStr "expected string"]) /\
  (passes (isNumber (v :: rest)) = false ->
   isNumber (v :: rest) = [VBool false; VStr "expected number"]) /\
  (passes (isBoolean (v :: rest)) = false ->
   isBoolean (v :: rest) = [VBool false; VStr "expected boolean"]) /\
  (passes (isNotNull (v :: rest)) = false ->
   isNotNull (v :: rest) = [VBool false; VStr "expected not null"]).
Proof.
  unfold passes, isString, isNumber, isBoolean, isNotNull.
  repeat split; destruct v as [| |[|]| | | | |]; simpl; intro H;
    try discriminate; reflexivity.
Qed.

Lemma validate_prop_other (cur : jsobj) (prop : string)
  (vs : list validation) (failed : list (string * value)) :
  forallb is_validator vs = false ->
  exists msg, validate_prop cur prop vs failed = Fail (Error msg).
Proof.
  revert failed. induction vs as [|v vs IH]; intros failed H; simpl in *;
    [discriminate|].
  destruct v as [fn | fn extra | shown]; simpl in *.
  - destruct (negb (truthy (nth 0 (fn [js_get cur prop]) VUndefined)));
      now apply IH.
  - destruct (negb (truthy (nth 0 (fn (js_get cur prop :: extra)) VUndefined)));
      now apply IH.
  - eauto.
Qed.

(** X12. An entry that is neither a function nor an array makes [validate()]
    throw a plain [Error]: the failures collected before it are not
    reported. *)
Theorem validate_refuses_non_validator (self : ModelInstance) :
  validators_only (proto self) = false ->
  exists msg, validate self = Fail (Error msg).
Proof.
  unfold validators_only, validate.
  generalize (@nil (string * value)) as failed.
  induction (validations (proto self)) as [|[prop vs] vals IH];
    intros failed H; simpl in *; [discriminate|].
  destruct (forallb is_validator vs) eqn:Evs.
  - rewrite validate_prop_collects by exact Evs. simpl in H.
    apply IH. exact H.
  - destruct (validate_prop_other (current (values self)) prop vs failed Evs)
      as [msg Hmsg].
    rewrite Hmsg. eauto.
Qed.

Lemma validate_refuses_non_validator_witness :
  exists msg, validate (construct Malformed None []) = Fail (Error msg).
Proof.
  apply (validate_refuses_non_validator (construct Malformed None [])).
  reflexivity.
Defined.

(* ===================================================================== *)
(** ** More on [save] and [update] *)
(* ===================================================================== *)

(** X13. A throwing pre-hook, or [obj.validate()] throwing after the
    pre-hooks, ends [save] and [update] with that failure before anything
    is sent to the connection. *)
Theorem failure_before_statement {R : Runtime} {S : Type}
  (conn : Connection S) (self : DAO.t) (obj : ModelInstance)
  (opts : option Opts) (s : S) (e : error) :
  (stops_early (preCreate (hooks (proto obj))) obj e ->
   run conn (DAO.save self obj opts) s = (Fail e, [], s)) /\
  (stops_early (preUpdate (hooks (proto obj))) obj e ->
   run conn (DAO.update self obj opts) s = (Fail e, [], s)).
Proof.
  split; intros [H | (obj1 & H & Hv)].
  - unfold DAO.save. rewrite H. reflexivity.
  - unfold DAO.save. rewrite H. cbn [lift bind]. rewrite Hv. reflexivity.
  - unfold DAO.update. rewrite H. reflexivity.
  - unfold DAO.update. rewrite H. cbn [lift bind]. rewrite Hv. reflexivity.
Qed.

Lemma failure_before_statement_witness :
  run scripted
      (DAO.save (R := no_functions) validated_dao two_failures None)
      [Ok [[]]] =
  (Fail (ValidationError
           [("name", VStr "expected string");
            ("description", VStr "expected string")]),
   [], [Ok [[]]]).
Proof.
  apply (proj1 (failure_before_statement (R := no_functions) scripted
                  validated_dao two_failures None [Ok [[]]] _)).
  right. exists two_failures. split; reflexivity.
Defined.

(** X14. What [save] and [update] return is checkpointed: when [validate],
    [attr], [changed] and [checkpoint] are the base methods once the
    pre-hooks have run, and there are no post-hooks, nothing is dirty on
    the returned instance, not even the attributes the returned row has
    just overwritten; and no more than one statement was sent ([save]
    sends exactly one). *)
Theorem returned_instance_is_clean {R : Runtime} {S : Type}
  (conn : Connection S) (self : DAO.t) (obj obj1 obj' : ModelInstance)
  (opts : option Opts) (s s' : S) (sent : list (statement * list value)) :
  (run_hooks (preCreate (hooks (proto obj))) obj = Ok obj1 ->
   undisturbed obj1 [Validate; Attr; Checkpoint] ->
   postCreate (hooks (proto obj)) = None ->
   run conn (DAO.save self obj opts) s = (Ok obj', sent, s') ->
   original (values obj') = [] /\ changed_all obj' = [] /\
   length sent = 1) /\
  (run_hooks (preUpdate (hooks (proto obj))) obj = Ok obj1 ->
   undisturbed obj1 [Validate; Changed; Checkpoint] ->
   postUpdate (hooks (proto obj)) = None ->
   run conn (DAO.update self obj opts) s = (Ok obj', sent, s') ->
   original (values obj') = [] /\ changed_all obj' = [] /\
   length sent <= 1).
Proof.
  split; intros Hpre Hbase Hpost Hrun.
  - unfold DAO.save in Hrun. rewrite Hpre, Hpost in Hrun.
    cbn [lift bind] in Hrun.
    rewrite (undisturbed_call obj1 _ Validate Hbase) in Hrun
      by (simpl; auto).
    cbn [base_call] in Hrun.
    destruct (validate obj1); cbn [lift bind fst snd] in Hrun;
      [|discriminate].
    rewrite (undisturbed_call obj1 _ Attr Hbase) in Hrun by (simpl; auto).
    cbn [base_call lift bind fst snd] in Hrun.
    destruct (DAO.insert_from self obj1 opts (RObject (attr_all obj1)))
      as [q|e]; cbn [lift bind queryAsync run] in Hrun; [|discriminate].
    destruct (respond conn (fst q) (snd q) s) as [[res|e] s1];
      cbn [lift bind run] in Hrun; [|discriminate].
    rewrite call_base in Hrun.
    + cbn [base_call lift bind fst snd run_hooks run] in Hrun.
      injection Hrun as <- <- <-. auto.
    + apply base_dispatch_merge_first.
      apply (proj1 (Forall_forall _ _) Hbase). simpl. auto.
  - unfold DAO.update in Hrun. rewrite Hpre, Hpost in Hrun.
    cbn [lift bind] in Hrun.
    rewrite (undisturbed_call obj1 _ Validate Hbase) in Hrun
      by (simpl; auto).
    cbn [base_call] in Hrun.
    destruct (validate obj1); cbn [lift bind fst snd] in Hrun;
      [|discriminate].
    rewrite (undisturbed_call obj1 _ Changed Hbase) in Hrun
      by (simpl; auto).
    cbn [base_call lift bind fst snd object_keys object_of] in Hrun.
    assert (Hcp : forall o, base_dispatch o Checkpoint ->
              call o Checkpoint = Ok (checkpoint o, ROther))
      by (intros o Ho; now rewrite call_base).
    assert (Hb : base_dispatch obj1 Checkpoint)
      by (apply (proj1 (Forall_forall _ _) Hbase); simpl; auto).
    destruct (Nat.ltb 0 (length (keys (changed_all obj1)))).
    + destruct (DAO.update_statement self obj1 opts (changed_all obj1))
        as [q|e]; cbn [lift bind queryAsync run] in Hrun; [|discriminate].
      destruct (respond conn (fst q) (snd q) s) as [[res|e] s1];
        cbn [lift bind run] in Hrun; [|discriminate].
      rewrite Hcp in Hrun by now apply base_dispatch_merge_first.
      cbn [lift bind fst snd run_hooks run] in Hrun.
      injection Hrun as <- <- <-. auto.
    + cbn [lift bind] in Hrun. rewrite (Hcp obj1 Hb) in Hrun.
      cbn [lift bind fst snd run_hooks run] in Hrun.
      injection Hrun as <- <- <-. auto.
Qed.

Lemma returned_instance_is_clean_witness :
  original
    (values
       (checkpoint (DAO.merge_first new_user [returned_row]))) = [] /\
  changed_all (checkpoint (DAO.merge_first new_user [returned_row])) = [] /\
  length [(Insert (Some "users") [("user_name", "$1")] "*", [VStr "old"])]
  = 1.
Proof.
  apply (proj1 (returned_instance_is_clean (R := no_functions) scripted
                  users_dao new_user new_user
                  (checkpoint (DAO.merge_first new_user [returned_row]))
                  None [Ok [returned_row]] []
                  [(Insert (Some "users") [("user_name", "$1")] "*",
                    [VStr "old"])]));
    try reflexivity.
  repeat constructor.
Defined.

Lemma insert_loop_numbering (m : Model) (copy : jsobj)
  (names : list string) :
  forall p sets vals sets' vals',
    DAO.insert_loop m copy names p sets vals = Ok (sets', vals') ->
    length vals = p ->
    map snd sets = map placeholder (seq 1 p) ->
    map snd sets' = map placeholder (seq 1 (length vals')).
Proof.
  induction names as [|n names IH]; intros p sets vals sets' vals' H Hl Hs;
    simpl in H.
  - injection H as <- <-. now rewrite Hl.
  - destruct (DAO.columnName m n) as [c|e]; [|discriminate].
    destruct (DAO.is_id m n && nullish (js_get copy n)).
    + eapply IH; eauto.
    + eapply IH; [exact H | |].
      * rewrite length_app. simpl. lia.
      * rewrite map_app, Hs, seq_S, map_app. reflexivity.
Qed.

Lemma update_loop_numbering (m : Model) (copy : jsobj)
  (names : list string) :
  forall p sets vals sets' vals',
    DAO.update_loop m copy names p sets vals = Ok (sets', vals') ->
    length vals = p ->
    map snd sets = map placeholder (seq 2 (p - 1)) ->
    1 <= p ->
    map snd sets' = map placeholder (seq 2 (length vals' - 1)).
Proof.
  induction names as [|n names IH]; intros p sets vals sets' vals' H Hl Hs Hp;
    simpl in H.
  - injection H as <- <-. now rewrite Hl.
  - destruct (DAO.columnName m n) as [c|e]; [|discriminate].
    eapply IH; [exact H | | |].
    + rewrite length_app. simpl. lia.
    + rewrite map_app, Hs.
      replace (S p - 1) with (S (p - 1)) by lia.
      rewrite seq_S, map_app. simpl.
      replace (S (S (p - 1))) with (S p) by lia. reflexivity.
    + lia.
Qed.

(** X15. The placeholders are numbered without gaps and match the values one
    to one: the INSERT names [$1 .. $k] for its [k] values (an omitted
    identity leaves no hole), the UPDATE [$2 .. $(k+1)] after the identity
    sent as [$1]. *)
Theorem placeholders_match_values {R : Runtime} (self : DAO.t)
  (obj : ModelInstance) (opts : option Opts) :
  (forall into sets returning vals,
     DAO.insert_statement self obj opts =
       Ok (Insert into sets returning, vals) ->
     map snd sets = map placeholder (seq 1 (length vals))) /\
  (forall dirty tbl cond sets returning vals,
     DAO.update_statement self obj opts dirty =
       Ok (Update tbl cond sets returning, vals) ->
     map snd sets = map placeholder (seq 2 (length vals - 1)) /\
     nth 0 vals VUndefined = as_value (get obj "id")).
Proof.
  split.
  - intros into sets returning vals H. unfold DAO.insert_statement in H.
    destruct (call obj Attr) as [[obj' attrs]|e]; [|discriminate].
    unfold DAO.insert_from in H.
    destruct (object_keys attrs) as [names|e]; [|discriminate].
    destruct (DAO.tableRef (DAO.schema_of self opts) (table (proto obj')))
      as [tbl|]; [|discriminate].
    destruct (DAO.insert_loop (proto obj') (object_of attrs) names 0 [] [])
      as [[sets0 vals0]|e] eqn:E; [|discriminate].
    destruct (negb (truthy_str (Some tbl))); [discriminate|].
    destruct (Nat.eqb (length sets0) 0); [discriminate|].
    injection H as _ <- _ <-.
    now apply (insert_loop_numbering _ _ _ _ _ _ _ _ E).
  - intros dirty tbl cond sets returning vals H.
    unfold DAO.update_statement in H.
    destruct (DAO.tableRef (DAO.schema_of self opts) (table (proto obj)))
      as [tbl0|]; [|discriminate].
    destruct (DAO.update_loop (proto obj) dirty (keys dirty) 1 []
                [as_value (get obj "id")]) as [[sets0 vals0]|e] eqn:E;
      [|discriminate].
    injection H as _ _ <- _ <-. split.
    + now apply (update_loop_numbering _ _ _ _ _ _ _ _ E).
    + clear -E.
      assert (Hgen : forall names p sets vals sets' vals',
        DAO.update_loop (proto obj) dirty names p sets vals
          = Ok (sets', vals') ->
        forall v, nth 0 vals VUndefined = v -> vals <> [] ->
        nth 0 vals' VUndefined = v).
      { induction names as [|n names IH]; intros p sets vals sets' vals' H v
          Hv Hne; simpl in H.
        - now injection H as <- <-.
        - destruct (DAO.columnName (proto obj) n); [|discriminate].
          eapply IH; [exact H | |].
          + destruct vals; [congruence | exact Hv].
          + destruct vals; [congruence | discriminate]. }
      eapply Hgen; [exact E | reflexivity | discriminate].
Qed.

Lemma placeholders_match_values_witness :
  map snd [("id", "$1"); ("user_name", "$2")] =
  map placeholder (seq 1 (length [VNum 0; VStr ""])).
Proof.
  apply (proj1 (placeholders_match_values (R := no_functions) users_dao
                  user_zero None)
           (Some "users") [("id", "$1"); ("user_name", "$2")] "*"
           [VNum 0; VStr ""]).
  reflexivity.
Defined.

Lemma update_loop_spec (m : Model) (copy : jsobj) (names : list string) :
  (forall n, In n names -> In n (map fst (attrs m))) ->
  forall p sets vals,
    DAO.update_loop m copy names p sets vals =
    Ok (sets ++ DAO.set_clauses m names p, vals ++ map (js_get copy) names).
Proof.
  induction names as [|n names IH]; intros Hdecl p sets vals; simpl.
  - now rewrite !app_nil_r.
  - destruct (columnName_declared m n (Hdecl n (or_introl eq_refl)))
      as [c Hc].
    rewrite Hc, IH by (intros k Hk; apply Hdecl; now right).
    now rewrite <- !app_assoc.
Qed.

Lemma changed_all_values (obj : ModelInstance) :
  map (js_get (changed_all obj)) (keys (changed_all obj)) =
  map (attr_one obj) (keys (changed_all obj)).
Proof.
  apply map_ext_in. intros n Hn.
  assert (H : hasOwnProperty (changed_all obj) n = true).
  { rewrite <- existsb_keys. apply existsb_exists. exists n.
    split; [exact Hn | apply String.eqb_refl]. }
  unfold js_get. rewrite changed_all_lookup.
  rewrite changed_all_keys in H. now rewrite H.
Qed.

(** X16. With a dirty set that is not empty (the pre-hooks have run,
    [validate], [changed] and [checkpoint] are the base methods, the
    dirty names are schema attributes and the schema names a table),
    [update] sends one UPDATE: keyed on the identity read from the
    instance, with one [set] per dirty attribute under its column and the
    current values in the same order.  A rejected statement is the
    outcome; an accepted one is merged, checkpointed and handed to the
    postUpdate hooks. *)
Theorem update_sends_dirty_attributes {R : Runtime} {S : Type}
  (conn : Connection S) (self : DAO.t) (obj obj1 : ModelInstance)
  (opts : option Opts) (s : S) (tbl : string) :
  run_hooks (preUpdate (hooks (proto obj))) obj = Ok obj1 ->
  undisturbed obj1 [Validate; Changed; Checkpoint] ->
  validate obj1 = Ok tt ->
  changed_all obj1 <> [] ->
  (forall n, hasChanged obj1 n = true -> In n (map fst (attrs (proto obj)))) ->
  DAO.tableRef (DAO.schema_of self opts) (table (proto obj)) = Some tbl ->
  let dirty := keys (changed_all obj1) in
  let q :=
    (Update (Some tbl) (DAO.where_id (proto obj))
            (combine (map (column_of (proto obj)) dirty)
                     (map placeholder (seq 2 (length dirty)))) "*",
     as_value (get obj1 "id") :: map (attr_one obj1) dirty) in
  run conn (DAO.update self obj opts) s =
  (match fst (respond conn (fst q) (snd q) s) with
   | Ok res =>
       run_hooks (postUpdate (hooks (proto obj)))
         (checkpoint (DAO.merge_first obj1 res))
   | Fail e => Fail e
   end,
   [q], snd (respond conn (fst q) (snd q) s)).
Proof.
  intros Hpre Hbase Hval Hne Hdecl Htbl dirty q.
  pose proof (run_hooks_proto _ _ _ Hpre) as Hproto.
  assert (Hlt : Nat.ltb 0 (length (keys (changed_all obj1))) = true).
  { destruct (changed_all obj1); [congruence | reflexivity]. }
  assert (Hdirty : forall n, In n dirty -> In n (map fst (attrs (proto obj)))).
  { intros n Hn. apply Hdecl.
    rewrite <- changed_all_keys, <- existsb_keys.
    apply existsb_exists. exists n. split; [exact Hn|].
    apply String.eqb_refl. }
  assert (Hq : DAO.update_statement self obj1 opts (changed_all obj1) = Ok q).
  { unfold DAO.update_statement. rewrite Hproto, Htbl.
    rewrite update_loop_spec by exact Hdirty.
    rewrite changed_all_values, (set_clauses_combine _ _ Hdirty).
    reflexivity. }
  unfold DAO.update. rewrite Hpre. cbn [lift bind].
  rewrite (undisturbed_call obj1 _ Validate Hbase) by (simpl; auto).
  cbn [base_call]. rewrite Hval. cbn [lift bind fst snd].
  rewrite (undisturbed_call obj1 _ Changed Hbase) by (simpl; auto).
  cbn [base_call lift bind fst snd object_keys object_of].
  rewrite Hlt, Hq. cbn [lift bind queryAsync run].
  destruct (respond conn (fst q) (snd q) s) as [[res|e] s1];
    cbn [lift bind run fst snd]; [|reflexivity].
  rewrite call_base.
  2:{ apply base_dispatch_merge_first.
      apply (proj1 (Forall_forall _ _) Hbase). simpl. auto. }
  cbn [base_call lift bind fst snd].
  destruct (run_hooks (postUpdate (hooks (proto obj)))
              (checkpoint (DAO.merge_first obj1 res))); reflexivity.
Qed.

Lemma update_sends_dirty_attributes_witness :
  run scripted (DAO.update (R := no_functions) users_dao dirty_user None)
      [Ok []] =
  (Ok (checkpoint dirty_user),
   [(Update (Some "users") "id = $1" [("user_name", "$2")] "*",
     [VNum 1; VStr "newer"])],
   []).
Proof.
  apply (update_sends_dirty_attributes (R := no_functions) scripted
           users_dao dirty_user dirty_user None [Ok []] "users").
  - reflexivity.
  - repeat constructor.
  - reflexivity.
  - discriminate.
  - intros n H.
    change (hasChanged dirty_user n)
      with (match (if String.eqb n "userName"
                   then Some (VStr "new") else None) with
            | Some _ => true
            | None => false
            end) in H.
    destruct (String.eqb_spec n "userName") as [E|Hne];
      [rewrite E; simpl; auto | discriminate H].
  - reflexivity.
Defined.

(* ===================================================================== *)
(** ** Merging a returned row *)
(* ===================================================================== *)

Lemma alias_plain (obj : ModelInstance) (name : string) :
  plain_id obj -> alias obj name = name.
Proof.
  intros [H|H]; unfold alias; rewrite H; simpl.
  - now rewrite andb_false_r.
  - destruct (String.eqb_spec name "id") as [->|_]; reflexivity.
Qed.

Lemma set_plain (self : ModelInstance) (name : string) (val : value) :
  plain_id self -> plain_id (fst (set self name val)).
Proof. unfold plain_id. now rewrite set_proto. Qed.

Lemma merge_keys_other (row : jsobj) (l : list string) (n : string) :
  ~ In n l ->
  forall obj, plain_id obj ->
    attr_one
      (fold_left (fun o k => fst (set o k (js_get row k))) l obj) n
      = attr_one obj n /\
    hasChanged
      (fold_left (fun o k => fst (set o k (js_get row k))) l obj) n
      = hasChanged obj n.
Proof.
  induction l as [|k l IH]; intros Hn obj Hp; simpl; [auto|].
  assert (Hk : n <> alias obj k).
  { rewrite alias_plain by exact Hp. intros ->. apply Hn. now left. }
  destruct (set_frame obj k n (js_get row k) Hk) as (Ha & _ & Hc).
  destruct (IH (fun H => Hn (or_intror H)) _ (set_plain obj k (js_get row k) Hp))
    as [IHa IHc].
  split; congruence.
Qed.

Lemma merge_keys_written (row : jsobj) (l : list string) (n : string) :
  In n l ->
  forall obj, plain_id obj ->
    js_in n (current (values obj)) = true ->
    attr_one
      (fold_left (fun o k => fst (set o k (js_get row k))) l obj) n
      = js_get row n.
Proof.
  induction l as [|k l IH]; intros Hn obj Hp Hin; simpl; [contradiction|].
  destruct (in_dec string_dec n l) as [Hl|Hl].
  - apply IH; [exact Hl | now apply set_plain |].
    now rewrite set_keeps_in.
  - destruct Hn as [->|Hn]; [|contradiction].
    destruct (merge_keys_other row l n Hl _ (set_plain obj n (js_get row n) Hp))
      as [Ha _].
    rewrite Ha. clear Ha.
    assert (Hin' : js_in (alias obj n) (current (values obj)) = true)
      by now rewrite alias_plain.
    destruct (set_tracked obj n (js_get row n) Hin') as (Hcur & _ & _).
    unfold attr_one. rewrite Hcur, alias_plain by exact Hp.
    apply js_get_put_same.
Qed.

(** X17. Merging a returned row (no name being redirected): every key of the
    row that the instance has takes the row's value; a key the instance
    does not have is dropped without creating it; names the row does not
    mention keep their value and their dirty flag. *)
Theorem merge_writes_known_keys (obj : ModelInstance) (row : jsobj)
  (n : string) :
  plain_id obj ->
  (In n (keys row) -> js_in n (current (values obj)) = true ->
   attr_one (DAO.merge obj row) n = js_get row n) /\
  (js_in n (current (values obj)) = false ->
   js_in n (current (values (DAO.merge obj row))) = false) /\
  (~ In n (keys row) ->
   attr_one (DAO.merge obj row) n = attr_one obj n /\
   hasChanged (DAO.merge obj row) n = hasChanged obj n).
Proof.
  intro Hp. unfold DAO.merge. split; [|split].
  - intros Hn Hin. now apply merge_keys_written.
  - intro Hout. revert obj Hp Hout.
    induction (keys row) as [|k l IH]; intros obj Hp Hout; simpl;
      [exact Hout|].
    apply IH; [now apply set_plain | now rewrite set_keeps_in].
  - intro Hn. now apply merge_keys_other.
Qed.

Lemma merge_writes_known_keys_witness :
  (In "id" (keys returned_row) ->
   js_in "id" (current (values new_user)) = true ->
   attr_one (DAO.merge new_user returned_row) "id"
   = js_get returned_row "id") /\
  (js_in "id" (current (values new_user)) = false ->
   js_in "id" (current (values (DAO.merge new_user returned_row))) = false) /\
  (~ In "id" (keys returned_row) ->
   attr_one (DAO.merge new_user returned_row) "id" = attr_one new_user "id" /\
   hasChanged (DAO.merge new_user returned_row) "id"
   = hasChanged new_user "id").
Proof.
  apply (merge_writes_known_keys new_user returned_row "id").
  right. reflexivity.
Defined.

(* ===================================================================== *)
(** ** More on [inTransaction] *)
(* ===================================================================== *)

(** X19. When the connection rejects BEGIN, the unit of work is not started:
    the only statements sent are BEGIN and the ROLLBACK of the catch
    block, and the failure raised is that of BEGIN (or of the ROLLBACK,
    if that is rejected too). *)
Theorem rejected_begin_skips_unit_of_work {S A : Type}
  (conn : Connection S) (fn : prog A) (opts : option Opts) (s s1 : S)
  (e : error) :
  respond conn (Sql "BEGIN;") [] s = (Fail e, s1) ->
  run conn (DAO.inTransaction fn opts) s =
  (match fst (respond conn (Sql "ROLLBACK;") [] s1) with
   | Ok _ => Fail e
   | Fail e' => Fail e'
   end,
   [(Sql "BEGIN;", []); (Sql "ROLLBACK;", [])],
   snd (respond conn (Sql "ROLLBACK;") [] s1)).
Proof.
  intro H. unfold DAO.inTransaction. simpl. rewrite H. simpl.
  destruct (respond conn (Sql "ROLLBACK;") [] s1) as [[r|e'] s2]; reflexivity.
Qed.

Lemma rejected_begin_skips_unit_of_work_witness :
  run scripted
      (DAO.inTransaction (DAO.save (R := no_functions) users_dao new_user None) None)
      [Fail (Error "no connection")] =
  (Fail (Error "no connection"),
   [(Sql "BEGIN;", []); (Sql "ROLLBACK;", [])], []).
Proof.
  exact (rejected_begin_skips_unit_of_work scripted
           (DAO.save (R := no_functions) users_dao new_user None) None
           [Fail (Error "no connection")] [] (Error "no connection")
           eq_refl).
Defined.

(** X20. When the unit of work succeeds but the closing statement is rejected,
    the result is lost: a ROLLBACK follows and the failure of the closing
    statement is raised (or that of the ROLLBACK, if rejected as well). *)
Theorem rejected_commit_rolls_back {S A : Type}
  (conn : Connection S) (fn : prog A) (opts : option Opts)
  (s s1 s2 s3 : S) (began : rows) (res : A)
  (sent : list (statement * list value)) (e : error) :
  respond conn (Sql "BEGIN;") [] s = (Ok began, s1) ->
  run conn fn s1 = (Ok res, sent, s2) ->
  respond conn (DAO.closing opts) [] s2 = (Fail e, s3) ->
  run conn (DAO.inTransaction fn opts) s =
  (match fst (respond conn (Sql "ROLLBACK;") [] s3) with
   | Ok _ => Fail e
   | Fail e' => Fail e'
   end,
   (Sql "BEGIN;", []) :: sent
     ++ [(DAO.closing opts, []); (Sql "ROLLBACK;", [])],
   snd (respond conn (Sql "ROLLBACK;") [] s3)).
Proof.
  intros Hbegin Hfn Hclose.
  assert (Hclosing : forall (B : Type) (k : rows -> prog B),
    bind (if match opts with Some o => o_readOnly o | None => false end
          then queryAsync (Sql "ROLLBACK;") []
          else queryAsync (Sql "COMMIT;") []) k =
    bind (queryAsync (DAO.closing opts) []) k).
  { intros B k. unfold DAO.closing.
    now destruct (match opts with Some o => o_readOnly o | None => false end). }
  unfold DAO.inTransaction.
  rewrite run_try_catch, run_bind, run_queryAsync, Hbegin. simpl.
  rewrite run_bind, Hfn, Hclosing, run_bind, run_queryAsync, Hclose. simpl.
  destruct (respond conn (Sql "ROLLBACK;") [] s3) as [[r|e'] s4]; simpl;
    rewrite <- app_assoc; reflexivity.
Qed.

Lemma rejected_commit_rolls_back_witness :
  run scripted (DAO.inTransaction (Return (VNum 1)) None)
      [Ok []; Fail (Error "serialization failure")] =
  (Fail (Error "serialization failure"),
   [(Sql "BEGIN;", []); (Sql "COMMIT;", []); (Sql "ROLLBACK;", [])], []).
Proof.
  exact (rejected_commit_rolls_back scripted (Return (VNum 1)) None
           [Ok []; Fail (Error "serialization failure")]
           [Fail (Error "serialization failure")]
           [Fail (Error "serialization failure")] [] [] (VNum 1) []
           (Error "serialization failure") eq_refl eq_refl eq_refl).
Defined.

(** X21. A read-only transaction never commits: whatever the unit of work and
    the connection do, the statements sent start with BEGIN and end with
    ROLLBACK, and every statement between them is one the unit of work
    sent or another ROLLBACK. *)
Theorem readOnly_never_commits {S A : Type}
  (conn : Connection S) (fn : prog A) (o : Opts) (s : S) :
  o_readOnly o = true ->
  exists mid,
    snd (fst (run conn (DAO.inTransaction fn (Some o)) s)) =
      (Sql "BEGIN;", []) :: mid ++ [(Sql "ROLLBACK;", [])] /\
    Forall
      (fun q =>
         q = (Sql "ROLLBACK;", []) \/
         In q (snd (fst (run conn fn
                           (snd (respond conn (Sql "BEGIN;") [] s))))))
      mid.
Proof.
  intro Hro. unfold DAO.inTransaction. rewrite Hro.
  rewrite run_try_catch, run_bind, run_queryAsync.
  destruct (respond conn (Sql "BEGIN;") [] s) as [[began|e] s1]; simpl.
  2:{ destruct (respond conn (Sql "ROLLBACK;") [] s1) as [[r|e'] s2];
        exists []; simpl; auto. }
  rewrite run_bind.
  destruct (run conn fn s1) as [[[res|ex] sent] s2] eqn:Hfn; simpl.
  - destruct (respond conn (Sql "ROLLBACK;") [] s2) as [[r|e'] s3]; simpl.
    + exists sent. split; [reflexivity|].
      apply Forall_forall. auto.
    + destruct (respond conn (Sql "ROLLBACK;") [] s3) as [[r|e''] s4];
        exists (sent ++ [(Sql "ROLLBACK;", [])]); simpl;
        (split; [now rewrite <- !app_assoc|]);
        apply Forall_forall; intros q Hq; apply in_app_or in Hq;
        destruct Hq as [Hq|[<-|[]]]; auto.
  - destruct (respond conn (Sql "ROLLBACK;") [] s2) as [[r|e'] s3];
      exists sent; simpl; (split; [reflexivity|]);
      apply Forall_forall; auto.
Qed.

Lemma readOnly_never_commits_witness :
  exists mid,
    snd (fst (run scripted
                (DAO.inTransaction (DAO.save (R := no_functions) users_dao new_user None)
                   (Some {| o_schema := None; o_readOnly := true |}))
                [Ok []; Ok [returned_row]])) =
      (Sql "BEGIN;", []) :: mid ++ [(Sql "ROLLBACK;", [])] /\
    Forall
      (fun q =>
         q = (Sql "ROLLBACK;", []) \/
         In q (snd (fst (run scripted (DAO.save (R := no_functions) users_dao new_user None)
                           (snd (respond scripted (Sql "BEGIN;") []
                                   [Ok []; Ok [returned_row]]))))))
      mid.
Proof.
  apply (readOnly_never_commits scripted (DAO.save (R := no_functions) users_dao new_user None)
           {| o_schema := None; o_readOnly := true |}
           [Ok []; Ok [returned_row]]).
  reflexivity.
Defined.

(* ===================================================================== *)
(** ** More on the streaming [query] *)
(* ===================================================================== *)

Lemma progress_fields (st : DAO.Query) (m : ModelInstance) :
  DAO.uniqueResult (DAO.progress st m) = DAO.uniqueResult st /\
  DAO.collectResults (DAO.progress st m) = DAO.collectResults st /\
  DAO.res (DAO.progress st m) = DAO.res st.
Proof. unfold DAO.progress. destruct (DAO.promise st); simpl; auto. Qed.

Lemma reject_fields (st : DAO.Query) (e : error) :
  DAO.uniqueResult (DAO.reject st e) = DAO.uniqueResult st /\
  DAO.collectResults (DAO.reject st e) = DAO.collectResults st /\
  DAO.res (DAO.reject st e) = DAO.res st.
Proof. unfold DAO.reject. destruct (DAO.promise st); simpl; auto. Qed.

Lemma resolve_fields (st : DAO.Query) (v : DAO.resolution) :
  DAO.uniqueResult (DAO.resolve st v) = DAO.uniqueResult st /\
  DAO.collectResults (DAO.resolve st v) = DAO.collectResults st /\
  DAO.res (DAO.resolve st v) = DAO.res st.
Proof. unfold DAO.resolve. destruct (DAO.promise st); simpl; auto. Qed.

Lemma deliver_keeps_list (self : DAO.t) (st : DAO.Query) (sg : DAO.signal) :
  list_when_collecting st ->
  exists st', DAO.deliver self st sg = Ok st' /\ list_when_collecting st'.
Proof.
  intro Hinv. unfold list_when_collecting in *.
  destruct sg as [row | | err | | ]; simpl.
  - unfold DAO.on_row.
    set (m := construct (DAO.model self) (Some row) []).
    destruct (DAO.uniqueResult st) eqn:Hu.
    + destruct (DAO.res st) as [|m0|l].
      * exists (DAO.progress (DAO.with_res st (DAO.ResOne m)) m).
        split; [reflexivity|].
        destruct (progress_fields (DAO.with_res st (DAO.ResOne m)) m)
          as (Hu' & _ & _).
        rewrite Hu'. simpl. congruence.
      * exists (DAO.reject st (Error "multiple results")).
        split; [reflexivity|].
        destruct (reject_fields st (Error "multiple results")) as (Hu' & _ & _).
        rewrite Hu'. congruence.
      * exists (DAO.reject st (Error "multiple results")).
        split; [reflexivity|].
        destruct (reject_fields st (Error "multiple results")) as (Hu' & _ & _).
        rewrite Hu'. congruence.
    + destruct (DAO.collectResults st) eqn:Hc.
      * destruct (Hinv eq_refl eq_refl) as [l Hl]. rewrite Hl.
        exists (DAO.progress (DAO.push st l m) m).
        split; [reflexivity|].
        destruct (progress_fields (DAO.push st l m) m) as (_ & _ & Hr').
        rewrite Hr'. simpl. eauto.
      * exists (DAO.progress st m). split; [reflexivity|].
        destruct (progress_fields st m) as (_ & Hc' & _).
        rewrite Hc'. congruence.
  - exists (DAO.on_end st). split; [reflexivity|].
    unfold DAO.on_end.
    destruct (DAO.uniqueResult st || DAO.collectResults st);
      match goal with
      | |- context [DAO.resolve st ?v] =>
          destruct (resolve_fields st v) as (Hu' & Hc' & Hr');
          rewrite Hu', Hc', Hr'
      end; exact Hinv.
  - exists (DAO.on_error st err). split; [reflexivity|].
    unfold DAO.on_error.
    destruct (reject_fields st err) as (Hu' & Hc' & Hr').
    rewrite Hu', Hc', Hr'. exact Hinv.
  - exists (DAO.call_uniqueResult st). split; [reflexivity|].
    simpl. discriminate.
  - exists (DAO.call_collectResults st). split; [reflexivity|].
    simpl. eauto.
Qed.

Lemma deliver_all_keeps_list (self : DAO.t) (sgs : list DAO.signal) :
  forall st, list_when_collecting st ->
  exists st', DAO.deliver_all self st sgs = Ok st' /\ list_when_collecting st'.
Proof.
  induction sgs as [|sg sgs IH]; intros st Hinv; simpl; [eauto|].
  destruct (deliver_keeps_list self st sg Hinv) as (st1 & H1 & Hinv1).
  rewrite H1. now apply IH.
Qed.


Lemma settled_ignores (st : DAO.Query) :
  DAO.promise st <> DAO.Pending ->
  (forall m, DAO.progress st m = st) /\
  (forall e, DAO.reject st e = st) /\
  (forall v, DAO.resolve st v = st).
Proof.
  intro Hs. unfold DAO.progress, DAO.reject, DAO.resolve.
  destruct (DAO.promise st) eqn:Ep; [congruence | auto | auto].
Qed.

Lemma outcome_kept_refl (p : DAO.promise_state) : outcome_kept p p.
Proof.
  destruct p as [|[|[| |l]]|e]; simpl; auto.
  exists []. now rewrite app_nil_r.
Qed.

Lemma outcome_kept_trans (p1 p2 p3 : DAO.promise_state) :
  outcome_kept p1 p2 -> outcome_kept p2 p3 -> outcome_kept p1 p3.
Proof.
  destruct p1 as [|[|[| |l]]|e]; simpl; try (intros ->; auto; fail).
  intros [more ->]. simpl. intros [more' ->].
  exists (more ++ more'). now rewrite app_assoc.
Qed.

Lemma outcome_kept_settled (p p' : DAO.promise_state) :
  p <> DAO.Pending -> outcome_kept p p' -> p' <> DAO.Pending.
Proof.
  destruct p as [|[|[| |l]]|e]; simpl; try congruence.
  intros _ [more ->]. discriminate.
Qed.

(** The sharing invariant holds from the start and is kept by whatever
    reaches the handle. *)
Lemma deliver_sharing (self : DAO.t) (st st' : DAO.Query) (sg : DAO.signal) :
  sharing_resolved st ->
  DAO.deliver self st sg = Ok st' ->
  sharing_resolved st'.
Proof.
  intros Hinv H.
  assert (Hpend : DAO.promise st = DAO.Pending -> DAO.shared st = false).
  { intro Hp. destruct (DAO.shared st) eqn:Es; [|reflexivity].
    destruct (Hinv Es) as (l & Hl & _). congruence. }
  assert (Hprog : forall m, sharing_resolved (DAO.progress st m)).
  { intro m. unfold DAO.progress.
    destruct (DAO.promise st) eqn:Ep; [|exact Hinv|exact Hinv].
    unfold sharing_resolved. simpl. rewrite (Hpend eq_refl). discriminate. }
  assert (Hrej : forall e, sharing_resolved (DAO.reject st e)).
  { intro e. unfold DAO.reject.
    destruct (DAO.promise st) eqn:Ep; [|exact Hinv|exact Hinv].
    unfold sharing_resolved. simpl. rewrite (Hpend eq_refl). discriminate. }
  destruct sg as [row | | err | | ]; simpl in H.
  - unfold DAO.on_row in H.
    set (m := construct (DAO.model self) (Some row) []) in *.
    destruct (DAO.uniqueResult st).
    + destruct (DAO.res st); injection H as <-; try apply Hrej.
      unfold sharing_resolved, DAO.progress, DAO.with_res.
      destruct (DAO.promise st); simpl; discriminate.
    + destruct (DAO.collectResults st).
      * destruct (DAO.res st) as [| |l] eqn:Er; try discriminate.
        injection H as <-.
        unfold sharing_resolved, DAO.progress, DAO.push.
        destruct (DAO.shared st) eqn:Es; simpl.
        -- intros _. eauto.
        -- destruct (DAO.promise st); simpl; rewrite ?Es; discriminate.
      * injection H as <-. apply Hprog.
  - injection H as <-. unfold DAO.on_end, DAO.resolve.
    destruct (DAO.promise st) eqn:Ep;
      [|destruct (_ || _); exact Hinv|destruct (_ || _); exact Hinv].
    destruct (DAO.uniqueResult st || DAO.collectResults st);
      unfold sharing_resolved; simpl; [|discriminate].
    destruct (DAO.res st) as [| |l]; simpl; try discriminate. eauto.
  - injection H as <-. apply Hrej.
  - injection H as <-. exact Hinv.
  - injection H as <-. unfold sharing_resolved. simpl. discriminate.
Qed.

Lemma deliver_settled (self : DAO.t) (st st' : DAO.Query) (sg : DAO.signal) :
  DAO.promise st <> DAO.Pending ->
  sharing_resolved st ->
  DAO.deliver self st sg = Ok st' ->
  outcome_kept (DAO.promise st) (DAO.promise st') /\
  DAO.progressed st' = DAO.progressed st.
Proof.
  intros Hs Hinv H.
  destruct (settled_ignores st Hs) as (Hprog & Hrej & Hres).
  pose proof (outcome_kept_refl (DAO.promise st)) as Hrefl.
  destruct sg as [row | | err | | ]; simpl in H.
  - unfold DAO.on_row in H.
    set (m := construct (DAO.model self) (Some row) []) in *.
    destruct (DAO.uniqueResult st).
    + destruct (DAO.res st); injection H as <-; rewrite ?Hrej; auto.
      destruct (settled_ignores (DAO.with_res st (DAO.ResOne m)) Hs)
        as (Hprog' & _ & _).
      rewrite Hprog'. auto.
    + destruct (DAO.collectResults st).
      * destruct (DAO.res st) as [| |l] eqn:Er; try discriminate.
        injection H as <-.
        destruct (DAO.shared st) eqn:Es.
        -- destruct (Hinv Es) as (l' & Hp & Hr).
           assert (l' = l) by congruence. subst l'.
           assert (Hpush : DAO.promise (DAO.push st l m) =
                           DAO.Resolved (DAO.Result (DAO.ResList (l ++ [m]))))
             by (unfold DAO.push; simpl; now rewrite Es).
           destruct (settled_ignores (DAO.push st l m)) as (Hprog' & _ & _);
             [rewrite Hpush; discriminate|].
           rewrite Hprog', Hpush, Hp. simpl. eauto.
        -- assert (Hpush : DAO.promise (DAO.push st l m) = DAO.promise st)
             by (unfold DAO.push; simpl; now rewrite Es).
           destruct (settled_ignores (DAO.push st l m)) as (Hprog' & _ & _);
             [now rewrite Hpush|].
           rewrite Hprog', Hpush. auto.
      * injection H as <-. rewrite Hprog. auto.
  - injection H as <-. unfold DAO.on_end.
    destruct (DAO.uniqueResult st || DAO.collectResults st);
      rewrite Hres; auto.
  - injection H as <-. unfold DAO.on_error. rewrite Hrej. auto.
  - injection H as <-. auto.
  - injection H as <-. auto.
Qed.

Lemma deliver_all_settled (self : DAO.t) (sgs : list DAO.signal)
  (st st' : DAO.Query) :
  DAO.promise st <> DAO.Pending ->
  sharing_resolved st ->
  DAO.deliver_all self st sgs = Ok st' ->
  outcome_kept (DAO.promise st) (DAO.promise st') /\
  DAO.progressed st' = DAO.progressed st.
Proof.
  revert st. induction sgs as [|sg sgs IH]; intros st Hs Hinv H; simpl in H.
  - injection H as <-. split; [apply outcome_kept_refl | reflexivity].
  - destruct (DAO.deliver self st sg) as [st1|e] eqn:E; [|discriminate].
    destruct (deliver_settled self st st1 sg Hs Hinv E) as [Hp Hg].
    destruct (IH st1) as [Hp' Hg'].
    + exact (outcome_kept_settled _ _ Hs Hp).
    + exact (deliver_sharing self st st1 sg Hinv E).
    + exact H.
    + split; [exact (outcome_kept_trans _ _ _ Hp Hp') | congruence].
Qed.

Lemma deliver_all_sharing (self : DAO.t) (sgs : list DAO.signal)
  (st st' : DAO.Query) :
  sharing_resolved st ->
  DAO.deliver_all self st sgs = Ok st' ->
  sharing_resolved st'.
Proof.
  revert st. induction sgs as [|sg sgs IH]; intros st Hinv H; simpl in H.
  - now injection H as <-.
  - destruct (DAO.deliver self st sg) as [st1|e] eqn:E; [|discriminate].
    exact (IH st1 (deliver_sharing self st st1 sg Hinv E) H).
Qed.

(** X23. The promise settles once: if it has been resolved or rejected by the
    time some signals have reached the handle, then whatever reaches it
    afterwards (rows, the end, an error, a mode call) passes on no further
    progress notification and leaves the outcome in place: a rejection
    keeps its error, and a resolution with nothing, with [null] or with
    one instance keeps its value.  A promise resolved with the collected
    list keeps that very array, to which rows arriving later are still
    pushed: the list can grow, and nothing else about it changes. *)
Theorem promise_settles_once (self : DAO.t) (q : statement)
  (params : list value) (first later : list DAO.signal) (st1 : DAO.Query) :
  DAO.deliver_all self (DAO.query self q params) first = Ok st1 ->
  DAO.promise st1 <> DAO.Pending ->
  exists st2,
    DAO.deliver_all self (DAO.query self q params) (first ++ later) = Ok st2 /\
    DAO.progressed st2 = DAO.progressed st1 /\
    match DAO.promise st1 with
    | DAO.Resolved (DAO.Result (DAO.ResList l)) =>
        exists more,
          DAO.promise st2 =
          DAO.Resolved (DAO.Result (DAO.ResList (l ++ more)))
    | outcome => DAO.promise st2 = outcome
    end.
Proof.
  intros Hfirst Hsettled.
  destruct (deliver_all_keeps_list self first (DAO.query self q params))
    as (st1' & Hrun1 & Hinv).
  { unfold list_when_collecting. simpl. discriminate. }
  assert (st1' = st1) by congruence. subst st1'.
  destruct (deliver_all_keeps_list self later st1 Hinv) as (st2 & Hrun2 & _).
  assert (Hshare : sharing_resolved st1).
  { apply (deliver_all_sharing self first (DAO.query self q params));
      [|exact Hfirst].
    unfold sharing_resolved. simpl. discriminate. }
  destruct (deliver_all_settled self later st1 st2 Hsettled Hshare Hrun2)
    as [Hkept Hprog].
  exists st2. split; [now rewrite deliver_all_app, Hfirst|].
  split; [exact Hprog|]. unfold outcome_kept in Hkept.
  destruct (DAO.promise st1) as [|[|[| |l]]|e]; exact Hkept.
Qed.

Lemma promise_settles_once_witness :
  exists st2,
    DAO.deliver_all users_dao (DAO.query users_dao (Sql "q") [])
      ([DAO.Row returned_row; DAO.ErrorEvent (Error "lost")]
       ++ [DAO.Row returned_row; DAO.End]) = Ok st2 /\
    DAO.progressed st2 = [construct Users (Some returned_row) []] /\
    DAO.promise st2 = DAO.Rejected (Error "lost").
Proof.
  apply (promise_settles_once users_dao (Sql "q") []
           [DAO.Row returned_row; DAO.ErrorEvent (Error "lost")]
           [DAO.Row returned_row; DAO.End]
           (DAO.on_error
              (DAO.progress (DAO.query users_dao (Sql "q") [])
                 (construct Users (Some returned_row) []))
              (Error "lost"))).
  - reflexivity.
  - discriminate.
Defined.

Lemma rows_pushed (self : DAO.t) (later : list jsobj) :
  forall st l,
    DAO.uniqueResult st = false ->
    DAO.collectResults st = true ->
    DAO.shared st = true ->
    DAO.promise st = DAO.Resolved (DAO.Result (DAO.ResList l)) ->
    DAO.res st = DAO.ResList l ->
    exists st',
      DAO.deliver_all self st (map DAO.Row later) = Ok st' /\
      DAO.promise st' =
        DAO.Resolved
          (DAO.Result
             (DAO.ResList
                (l ++ map (fun row => construct (DAO.model self) (Some row) [])
                          later))) /\
      DAO.progressed st' = DAO.progressed st.
Proof.
  induction later as [|row later IH]; intros st l Hu Hc Hs Hp Hr; simpl.
  - exists st. rewrite app_nil_r. auto.
  - unfold DAO.on_row. rewrite Hu, Hc, Hr.
    set (m := construct (DAO.model self) (Some row) []).
    assert (Hst : DAO.progress (DAO.push st l m) m =
                  {| DAO.uniqueResult := false; DAO.collectResults := true;
                     DAO.res := DAO.ResList (l ++ [m]);
                     DAO.promise :=
                       DAO.Resolved (DAO.Result (DAO.ResList (l ++ [m])));
                     DAO.shared := true;
                     DAO.progressed := DAO.progressed st;
                     DAO.sent := DAO.sent st |}).
    { unfold DAO.progress, DAO.push. rewrite Hs. simpl. rewrite Hu, Hc.
      reflexivity. }
    rewrite Hst.
    match goal with
    | |- context [DAO.deliver_all self ?s _] =>
        destruct (IH s (l ++ [m]) eq_refl eq_refl eq_refl eq_refl eq_refl)
          as (st' & Hrun & Hp' & Hg')
    end.
    exists st'. split; [exact Hrun|]. split; [|exact Hg'].
    rewrite Hp', <- app_assoc. reflexivity.
Qed.

(** X30. The list a promise was resolved with is the array the listener keeps
    pushing to: with [collectResults()] requested first, the rows that
    arrive after the end of the stream show up in the resolved value
    behind those that came before it, though no progress notification is
    passed on for them. *)
Theorem late_rows_reach_resolved_list (self : DAO.t) (q : statement)
  (params : list value) (rs later : list jsobj) :
  exists st,
    DAO.deliver_all self (DAO.query self q params)
      (DAO.CollectResults :: map DAO.Row rs ++ DAO.End :: map DAO.Row later)
    = Ok st /\
    DAO.promise st =
      DAO.Resolved
        (DAO.Result
           (DAO.ResList
              (map (fun row => construct (DAO.model self) (Some row) [])
                   (rs ++ later)))) /\
    DAO.progressed st =
      map (fun row => construct (DAO.model self) (Some row) []) rs.
Proof.
  destruct (rows_collected self rs
              (DAO.call_collectResults (DAO.query self q params)) [])
    as (st1 & Hrun1 & Hu1 & Hc1 & Hp1 & Hr1 & Hs1 & Hg1); auto.
  simpl in Hr1, Hg1.
  destruct (rows_pushed self later (DAO.on_end st1)
              (map (fun row => construct (DAO.model self) (Some row) []) rs))
    as (st2 & Hrun2 & Hp2 & Hg2);
    try (unfold DAO.on_end, DAO.resolve; rewrite Hu1, Hc1, Hp1, Hr1;
         simpl; auto; fail).
  exists st2. split; [|split].
  - cbn [DAO.deliver_all DAO.deliver]. rewrite deliver_all_app, Hrun1.
    cbn [DAO.deliver_all DAO.deliver]. exact Hrun2.
  - rewrite Hp2, map_app. reflexivity.
  - rewrite Hg2. unfold DAO.on_end, DAO.resolve.
    rewrite Hu1, Hc1, Hp1. simpl. exact Hg1.
Qed.


Lemma rows_notified (self : DAO.t) (rs : list jsobj) :
  forall st,
    DAO.uniqueResult st = false ->
    DAO.collectResults st = false ->
    DAO.promise st = DAO.Pending ->
    exists st',
      DAO.deliver_all self st (map DAO.Row rs) = Ok st' /\
      DAO.uniqueResult st' = false /\
      DAO.collectResults st' = false /\
      DAO.promise st' = DAO.Pending /\
      DAO.progressed st' =
        DAO.progressed st
        ++ map (fun row => construct (DAO.model self) (Some row) []) rs.
Proof.
  induction rs as [|row rs IH]; intros st Hu Hc Hp; simpl.
  - exists st. rewrite app_nil_r. auto.
  - unfold DAO.on_row. rewrite Hu, Hc.
    set (m := construct (DAO.model self) (Some row) []).
    destruct (IH (DAO.progress st m)) as (st' & Hrun & Hu' & Hc' & Hp' & Hg');
      try (unfold DAO.progress; rewrite Hp; simpl; auto; fail).
    exists st'. split; [exact Hrun|]. repeat split; auto.
    rewrite Hg'. unfold DAO.progress. rewrite Hp. simpl.
    now rewrite <- app_assoc.
Qed.

(** X25. With no mode requested, every row is passed on as a progress
    notification, in order, and at the end of the stream the promise
    resolves with nothing. *)
Theorem plain_query_notifies_rows (self : DAO.t) (q : statement)
  (params : list value) (rs : list jsobj) :
  exists st,
    DAO.deliver_all self (DAO.query self q params)
      (map DAO.Row rs ++ [DAO.End]) = Ok st /\
    DAO.promise st = DAO.Resolved DAO.Nothing /\
    DAO.progressed st =
      map (fun row => construct (DAO.model self) (Some row) []) rs.
Proof.
  destruct (rows_notified self rs (DAO.query self q params))
    as (st1 & Hrun & Hu & Hc & Hp & Hg); auto.
  exists (DAO.on_end st1). split; [|split].
  - rewrite deliver_all_app, Hrun. reflexivity.
  - unfold DAO.on_end, DAO.resolve. rewrite Hu, Hc, Hp. reflexivity.
  - unfold DAO.on_end, DAO.resolve. rewrite Hu, Hc, Hp. simpl. exact Hg.
Qed.

(** X26. An error from the connection while the promise is pending rejects it
    with that error, and nothing that follows (more rows, the end of the
    stream, a mode call) changes that. *)
Theorem stream_error_rejects (self : DAO.t) (q : statement)
  (params : list value) (before after : list DAO.signal) (err : error) :
  forallb row_or_collect before = true ->
  exists st,
    DAO.deliver_all self (DAO.query self q params)
      (before ++ DAO.ErrorEvent err :: after) = Ok st /\
    DAO.promise st = DAO.Rejected err.
Proof.
  intro Hbefore.
  destruct (collecting_kept self before Hbefore (DAO.query self q params))
    as (st1 & Hrun1 & Hu1 & Hp1 & Hl1 & Hs1).
  { unfold collecting. simpl. repeat split; auto. discriminate. }
  destruct (deliver_all_keeps_list self after (DAO.on_error st1 err))
    as (st & Hrun & _).
  { unfold list_when_collecting, DAO.on_error.
    destruct (reject_fields st1 err) as (Hu' & Hc' & Hr').
    rewrite Hu', Hc', Hr'. intros _ Hc. now apply Hl1. }
  exists st. split.
  - rewrite deliver_all_app, Hrun1. simpl. exact Hrun.
  - destruct (deliver_all_settled self after (DAO.on_error st1 err) st)
      as [Hp _].
    + unfold DAO.on_error, DAO.reject. rewrite Hp1. simpl. discriminate.
    + unfold sharing_resolved, DAO.on_error, DAO.reject. rewrite Hp1.
      simpl. rewrite Hs1. discriminate.
    + exact Hrun.
    + unfold DAO.on_error, DAO.reject in Hp. rewrite Hp1 in Hp.
      exact Hp.
Qed.

Lemma stream_error_rejects_witness :
  exists st,
    DAO.deliver_all users_dao (DAO.query users_dao (Sql "q") [])
      ([DAO.Row returned_row; DAO.CollectResults]
       ++ DAO.ErrorEvent (Error "lost") :: [DAO.Row returned_row; DAO.End])
    = Ok st /\
    DAO.promise st = DAO.Rejected (Error "lost").
Proof.
  apply (stream_error_rejects users_dao (Sql "q") []
           [DAO.Row returned_row; DAO.CollectResults]
           [DAO.Row returned_row; DAO.End] (Error "lost")).
  reflexivity.
Defined.

(* ===================================================================== *)
(** ** Reads, and what [save] brings back *)
(* ===================================================================== *)

(** X27. A schema attribute always reads as its current value, also when it
    carries the name of a method ([validate], [on], ...): attributes are
    looked up before methods.  ([id] on a schema whose identity attribute
    has another name is the one exception, see [alias].) *)
Theorem get_reads_attribute (m : Model) (self : ModelInstance)
  (n : string) :
  reachable m self ->
  In n (map fst (attrs m)) ->
  n <> "__model__" ->
  n <> "__self__" ->
  alias self n = n ->
  get self n = PValue (attr_one self n).
Proof.
  intros Hr Hn Hm Hs Ha. unfold get.
  apply String.eqb_neq in Hm. apply String.eqb_neq in Hs.
  rewrite Hm, Hs, Ha.
  rewrite (hasOwnProperty_in _ _ (reachable_has_attribute m self n Hr Hn)).
  reflexivity.
Qed.

Lemma get_reads_attribute_witness :
  get travelled "userName" = PValue (attr_one travelled "userName").
Proof.
  apply (get_reads_attribute Users travelled "userName").
  - exact travelled_reachable.
  - simpl. auto.
  - discriminate.
  - discriminate.
  - reflexivity.
Defined.

(** X18. A successful [save] (the pre-hooks have run, [validate], [attr]
    and [checkpoint] are the base methods, no name is redirected, there
    are no postCreate hooks) adopts the first returned row: it sends the
    one INSERT, and on the instance it returns every attribute the row
    mentions has the row's value, generated identity included, and
    nothing is dirty. *)
Theorem save_adopts_returned_row {R : Runtime} {S : Type}
  (conn : Connection S) (self : DAO.t) (obj obj1 : ModelInstance)
  (opts : option Opts) (s s1 : S) (q : statement * list value)
  (row : jsobj) (more : rows) :
  run_hooks (preCreate (hooks (proto obj))) obj = Ok obj1 ->
  undisturbed obj1 [Validate; Attr; Checkpoint] ->
  postCreate (hooks (proto obj)) = None ->
  validate obj1 = Ok tt ->
  plain_id obj1 ->
  DAO.insert_statement self obj1 opts = Ok q ->
  respond conn (fst q) (snd q) s = (Ok (row :: more), s1) ->
  run conn (DAO.save self obj opts) s =
    (Ok (checkpoint (DAO.merge obj1 row)), [q], s1) /\
  forall n, In n (keys row) ->
            js_in n (current (values obj1)) = true ->
            attr_one (checkpoint (DAO.merge obj1 row)) n = js_get row n /\
            hasChanged (checkpoint (DAO.merge obj1 row)) n = false.
Proof.
  intros Hpre Hbase Hpost Hval Hplain Hq Hresp. split.
  - unfold DAO.insert_statement in Hq.
    rewrite (undisturbed_call obj1 _ Attr Hbase) in Hq by (simpl; auto).
    cbn [base_call] in Hq.
    unfold DAO.save. rewrite Hpre, Hpost. cbn [lift bind].
    rewrite (undisturbed_call obj1 _ Validate Hbase) by (simpl; auto).
    cbn [base_call]. rewrite Hval. cbn [lift bind fst snd].
    rewrite (undisturbed_call obj1 _ Attr Hbase) by (simpl; auto).
    cbn [base_call lift bind fst snd]. rewrite Hq.
    cbn [lift bind queryAsync run]. rewrite Hresp.
    cbn [lift bind run DAO.merge_first].
    rewrite call_base.
    2:{ apply base_dispatch_merge.
        apply (proj1 (Forall_forall _ _) Hbase). simpl. auto. }
    destruct q as [stmt params]. reflexivity.
  - intros n Hn Hin. split; [|reflexivity].
    unfold checkpoint, attr_one. simpl.
    exact (merge_keys_written row (keys row) n Hn obj1 Hplain Hin).
Qed.

Lemma save_adopts_returned_row_witness :
  run scripted (DAO.save (R := no_functions) users_dao new_user None)
      [Ok [returned_row]] =
    (Ok (checkpoint (DAO.merge new_user returned_row)),
     [(Insert (Some "users") [("user_name", "$1")] "*", [VStr "old"])], [])
  /\
  forall n, In n (keys returned_row) ->
            js_in n (current (values new_user)) = true ->
            attr_one (checkpoint (DAO.merge new_user returned_row)) n
            = js_get returned_row n /\
            hasChanged (checkpoint (DAO.merge new_user returned_row)) n
            = false.
Proof.
  apply (save_adopts_returned_row (R := no_functions) scripted users_dao
           new_user new_user None [Ok [returned_row]] []
           (Insert (Some "users") [("user_name", "$1")] "*", [VStr "old"])
           returned_row []);
    try reflexivity.
  - repeat constructor.
  - right. reflexivity.
Defined.

(** X28. The Q-based copy of [update] builds its UPDATE whatever the dirty
    set.  When nothing is dirty (the pre-hooks have run, validation has
    passed, [validate] and [changed] are the base methods), no [set] has
    been given by the time the statement is asked for, the builder
    refuses it, and [update] fails with that error: nothing is sent, the
    instance is not checkpointed and no postUpdate hook runs. *)
Theorem legacy_update_refuses_clean_instance {R : Runtime} {S : Type}
  (conn : Connection S) (self : DAO.t) (obj obj1 : ModelInstance)
  (opts : option Opts) (s : S) :
  run_hooks (preUpdate (hooks (proto obj))) obj = Ok obj1 ->
  undisturbed obj1 [Validate; Changed] ->
  validate obj1 = Ok tt ->
  changed_all obj1 = [] ->
  exists msg,
    run conn (Legacy.update self obj opts) s = (Fail (Error msg), [], s).
Proof.
  intros Hpre Hbase Hval Hclean.
  unfold Legacy.update. rewrite Hpre. cbn [lift bind].
  rewrite (undisturbed_call obj1 _ Validate Hbase) by (simpl; auto).
  cbn [base_call]. rewrite Hval. cbn [lift bind fst snd].
  rewrite (undisturbed_call obj1 _ Changed Hbase) by (simpl; auto).
  cbn [base_call lift bind fst snd object_keys object_of].
  unfold Legacy.update_statement. rewrite Hclean.
  destruct (Legacy.tableRef opts (table (proto obj1))); simpl; eauto.
Qed.

Lemma legacy_update_refuses_clean_instance_witness :
  exists msg,
    run scripted
        (Legacy.update (R := no_functions) logged_dao clean_logged None) [] =
    (Fail (Error msg), [], []).
Proof.
  apply (legacy_update_refuses_clean_instance (R := no_functions) scripted
           logged_dao clean_logged
           (with_values clean_logged
              {| current := [("id", VNum 1); ("log", VStr "ab")];
                 original := [] |}));
    try reflexivity.
  repeat constructor.
Defined.
